(** * The ethics automarker: rubric evaluator

    A shallow embedding of [markEthicsResponse] and its helpers, in the two
    versions the repository holds: the full evaluator (strengths, tags, grid,
    framework) and the earlier copy kept in [server.js] (module [Server]).

    JavaScript strings are sequences of UTF-16 code units; numbers that the
    evaluator handles are small integers and are modelled in [Z]. *)

From Stdlib Require Import String Ascii List ZArith NArith Bool Lia.
Import ListNotations.

Local Open Scope Z_scope.

(** ** Strings *)

(** A JavaScript string: its UTF-16 code units. *)
Definition jsstring := list N.

Fixpoint bytes (s : string) : list N :=
  match s with
  | EmptyString => []
  | String c r => N_of_ascii c :: bytes r
  end.

(** Decoding of the UTF-8 bytes of a literal into code units, so that the
    literals of the source can be written as they are. *)
Fixpoint utf16 (bs : list N) : jsstring :=
  match bs with
  | [] => []
  | b0 :: r0 =>
    if (b0 <? 128)%N then b0 :: utf16 r0
    else
      match r0 with
      | [] => []
      | b1 :: r1 =>
        if (b0 <? 224)%N
        then N.lor (N.shiftl (N.land b0 31) 6) (N.land b1 63) :: utf16 r1
        else
          match r1 with
          | [] => []
          | b2 :: r2 =>
            if (b0 <? 240)%N
            then N.lor (N.shiftl (N.land b0 15) 12)
                   (N.lor (N.shiftl (N.land b1 63) 6) (N.land b2 63))
                 :: utf16 r2
            else
              match r2 with
              | [] => []
              | b3 :: r3 =>
                let cp := N.lor (N.shiftl (N.land b0 7) 18)
                            (N.lor (N.shiftl (N.land b1 63) 12)
                               (N.lor (N.shiftl (N.land b2 63) 6) (N.land b3 63))) in
                let v := (cp - 65536)%N in
                (55296 + N.shiftr v 10)%N :: (56320 + N.land v 1023)%N :: utf16 r3
              end
          end
      end
  end.

Definition js (s : string) : jsstring := utf16 (bytes s).

Arguments js s%_string_scope.

(** The characters [\s] matches and [trim] strips: WhiteSpace and
    LineTerminator of ECMAScript. *)
Definition isWhiteSpace (c : N) : bool :=
  ((9 <=? c) && (c <=? 13) || (c =? 32) || (c =? 160) || (c =? 5760)
   || (8192 <=? c) && (c <=? 8202) || (c =? 8232) || (c =? 8233)
   || (c =? 8239) || (c =? 8287) || (c =? 12288) || (c =? 65279))%N.

(** [\w] without the unicode flag: [A-Za-z0-9_]. *)
Definition isWordChar (c : N) : bool :=
  ((65 <=? c) && (c <=? 90) || (97 <=? c) && (c <=? 122)
   || (48 <=? c) && (c <=? 57) || (c =? 95))%N.

Definition isUpperAscii (c : N) : bool := ((65 <=? c) && (c <=? 90))%N.

(** Lower-casing of one code unit. Basic Latin letters are mapped; of the
    characters outside Basic Latin only U+0130 and U+212A have a lower case
    that holds a Basic Latin letter, and they are mapped as Unicode does.
    Every other code unit is kept: its lower case holds no Basic Latin
    character, and the evaluator only searches the lower-cased text for
    Basic Latin needles. *)
Definition lowerUnit (c : N) : list N :=
  if isUpperAscii c then [(c + 32)%N]
  else if (c =? 304)%N then [105%N; 775%N]
  else if (c =? 8490)%N then [107%N]
  else [c].

Definition toLowerCase (s : jsstring) : jsstring := flat_map lowerUnit s.

Fixpoint trimStart (s : jsstring) : jsstring :=
  match s with
  | [] => []
  | c :: r => if isWhiteSpace c then trimStart r else s
  end.

Fixpoint trimEnd (s : jsstring) : jsstring :=
  match s with
  | [] => []
  | c :: r =>
    match trimEnd r with
    | [] => if isWhiteSpace c then [] else [c]
    | r' => c :: r'
    end
  end.

Definition trim (s : jsstring) : jsstring := trimEnd (trimStart s).

(** [s.split(/\s+/)]: the pieces between the maximal runs of white space.
    [inws] tells that the scan is inside a run, [cur] is the piece read so
    far. A run at the start or at the end leaves an empty piece. *)
Fixpoint split_go (inws : bool) (cur s : jsstring) : list jsstring :=
  match s with
  | [] => [cur]
  | c :: r =>
    if isWhiteSpace c
    then if inws then split_go true [] r else cur :: split_go true [] r
    else split_go false (cur ++ [c]) r
  end.

Definition split_ws (s : jsstring) : list jsstring := split_go false [] s.

(** [Boolean] on a string: the empty string is the only falsy one. *)
Definition truthy (s : jsstring) : bool :=
  match s with [] => false | _ => true end.

Fixpoint startsWith (n s : jsstring) : bool :=
  match n, s with
  | [], _ => true
  | _ :: _, [] => false
  | a :: n', b :: s' => (a =? b)%N && startsWith n' s'
  end.

(** [s.includes(n)] *)
Fixpoint includes (s n : jsstring) : bool :=
  startsWith n s ||
  match s with
  | [] => false
  | _ :: r => includes r n
  end.

(** ** Helpers of the source (the same text in both versions)

    The marker is only called on strings, for which [String(text || "")]
    is [text] itself. *)

Definition wordCount (text : jsstring) : Z :=
  let t := trim text in
  if truthy t then Z.of_nat (length (filter truthy (split_ws t))) else 0.

Definition hasAny (text : jsstring) (needles : list jsstring) : bool :=
  let t := toLowerCase text in
  existsb (fun n => includes t n) needles.

(** The number of maximal runs of characters that are not white space, as
    the specification words the word count. *)
Fixpoint runs_from (prev_ws : bool) (s : jsstring) : nat :=
  match s with
  | [] => 0
  | c :: r =>
    if isWhiteSpace c then runs_from true r
    else ((if prev_ws then 1 else 0) + runs_from false r)%nat
  end.

Definition nonWhitespaceRuns (s : jsstring) : nat := runs_from true s.

(** ** Task content *)

Definition MODEL_ANSWER : jsstring := js
"1. Key ethical or legal failures

One major failure was the use of facial recognition without clear public consent or transparency. Residents were not properly informed about how their data would be collected or used. A second failure was the lack of sufficient testing for bias and accuracy before deployment, which increased the risk of misidentification.

2. Why these failures mattered

These failures mattered because facial recognition can directly affect people’s rights and wellbeing. Individuals could be wrongly identified, questioned, or monitored, causing stress and harm. The lack of transparency also damaged public trust, as people felt watched rather than protected. When AI systems are introduced without openness or safeguards, they risk reinforcing unfairness and discrimination, particularly for certain groups.

3. What should have been done differently

First, the council should have completed a Data Protection Impact Assessment (DPIA) and clearly explained the system to the public, including how data would be stored and protected. Second, the system should have been independently tested for bias and accuracy before use, with clear limits on where and when it could operate. These steps would have supported fairer, more responsible use of AI.".
(** ** Framework text for the Learn More tabs *)

Record FrameworkEntry := { expectation : jsstring; case : jsstring }.

Record Framework := {
  gdpr : FrameworkEntry;
  unesco : FrameworkEntry;
  ofsted : FrameworkEntry;
  jisc : FrameworkEntry
}.

Definition FRAMEWORK : Framework := {|
  gdpr := {|
    expectation := js "UK GDPR Article 5 – Lawfulness, fairness and transparency (data protection principles).";
    case := js "SmartTown’s use of biometric data without clear public transparency or lawful basis shows what can go wrong when personal data is processed without clear safeguards."
  |};
  unesco := {|
    expectation := js "UNESCO Recommendation on the Ethics of Artificial Intelligence (adopted 2021) – human rights, dignity, transparency and fairness across the AI lifecycle.";
    case := js "The case illustrates how facial recognition can undermine rights and dignity when it is not transparent, not accountable, or produces biased outcomes."
  |};
  ofsted := {|
    expectation := js "Ofsted – expectations for responsible use of technology/AI: ethical, safe, transparent practice and management of risks (e.g., bias, fairness, data protection).";
    case := js "SmartTown lacked transparency and safeguards, highlighting why organisations must evaluate risks and ensure AI is used responsibly and fairly."
  |};
  jisc := {|
    expectation := js "Jisc – principles for responsible AI use in education: fair, safe, accountable and transparent deployment.";
    case := js "The case shows why risk assessment, fairness checks, and clear governance matter before deploying AI that affects people."
  |}
|}.

(** ** Rubric detection themes *)

Record Theme := { key : jsstring; hits : list jsstring }.

Definition FAILURE_THEMES : list Theme := [
  {| key := js "consent/transparency";
     hits := [js "consent"; js "transparent"; js "transparency"; js "informed"; js "notice"; js "public informed"] |};
  {| key := js "gdpr/lawful basis";
     hits := [js "gdpr"; js "lawful"; js "lawful basis"; js "data protection"; js "dpa"; js "privacy"] |};
  {| key := js "bias/fairness";
     hits := [js "bias"; js "biased"; js "fair"; js "fairness"; js "discrimin"; js "equal"] |};
  {| key := js "accuracy/misidentification";
     hits := [js "accur"; js "misidentif"; js "false positive"; js "false negative"; js "wrongly"] |};
  {| key := js "security/storage";
     hits := [js "secure"; js "security"; js "stored"; js "storage"; js "breach"; js "access control"; js "encryption"] |};
  {| key := js "dpia/governance";
     hits := [js "dpia"; js "impact assessment"; js "governance"; js "oversight"; js "audit"] |}
].

Definition REC_THEMES : list (list jsstring) := [
  [js "dpia"; js "impact assessment"];
  [js "consent"; js "transparen"; js "public notice"];
  [js "bias"; js "fairness testing"; js "independent testing"];
  [js "accuracy testing"; js "pilot"; js "validate"];
  [js "data minim"; js "retention"; js "delete"];
  [js "security"; js "access control"; js "encryption"];
  [js "limits"; js "where"; js "when"; js "policy"; js "governance"]
].

(** ** Status helpers *)

Definition statusFromLevel (level : Z) : jsstring :=
  if level >=? 2 then js "✓ Secure"
  else if level =? 1 then js "◐ Developing"
  else js "✗ Missing".

Definition tagStatus (level : Z) : jsstring :=
  if level >=? 2 then js "ok"
  else if level =? 1 then js "mid"
  else js "bad".

(** ** The action markers: a global, case-insensitive regular expression *)

(** The alternatives of
    [/\baction\b|\bshould\b|\bmust\b|\bneed to\b|\brecommend\b/gi],
    in the order they are tried. *)
Definition ACTION_WORDS : list jsstring :=
  [js "action"; js "should"; js "must"; js "need to"; js "recommend"].

(** Canonicalize of a case-insensitive, non-unicode pattern: a code unit
    outside Basic Latin never folds onto a Basic Latin one. *)
Definition canonicalize (c : N) : N :=
  if ((97 <=? c) && (c <=? 122))%N then (c - 32)%N else c.

Definition isWordOpt (c : option N) : bool :=
  match c with Some x => isWordChar x | None => false end.

(** [\b] between the code unit before a position and the one at it. *)
Definition wordBoundary (prev next : option N) : bool :=
  xorb (isWordOpt prev) (isWordOpt next).

(** Matches the characters of [p] at the head of [s]; gives the last
    code unit matched and the rest of [s]. *)
Fixpoint matchChars (p s : jsstring) (last : option N) : option (option N * jsstring) :=
  match p with
  | [] => Some (last, s)
  | a :: p' =>
    match s with
    | [] => None
    | b :: s' =>
      if (canonicalize a =? canonicalize b)%N then matchChars p' s' (Some b) else None
    end
  end.

(** One alternative [\bp\b] at a position; the length of the match. *)
Definition matchWordAt (prev : option N) (s p : jsstring) : option nat :=
  if wordBoundary prev (hd_error s) then
    match matchChars p s prev with
    | Some (last, rest) =>
      if wordBoundary last (hd_error rest) then Some (length p) else None
    | None => None
    end
  else None.

Fixpoint firstMatchAt (prev : option N) (s : jsstring) (alts : list jsstring) : option nat :=
  match alts with
  | [] => None
  | p :: alts' =>
    match matchWordAt prev s p with
    | Some n => Some n
    | None => firstMatchAt prev s alts'
    end
  end.

(** The number of matches [String.prototype.match] collects with the [g]
    flag: the scan resumes at the end of each match. [skip] counts the
    code units of the last match still to pass. *)
Fixpoint countMatches (alts : list jsstring) (prev : option N) (skip : nat) (s : jsstring) : nat :=
  match s with
  | [] => 0
  | c :: r =>
    match skip with
    | S k => countMatches alts (Some c) k r
    | O =>
      match firstMatchAt prev s alts with
      | Some n => S (countMatches alts (Some c) (n - 1) r)
      | None => countMatches alts (Some c) 0 r
      end
    end
  end.

Definition actionMarkers (answerText : jsstring) : Z :=
  Z.of_nat (countMatches ACTION_WORDS None 0 answerText).

(** ** The running score and the improvement notes *)

Record Marking := { score : Z; notes : list jsstring }.

Definition M (A : Type) : Type := Marking -> A * Marking.

Definition ret {A : Type} (a : A) : M A := fun st => (a, st).

Definition bind {A B : Type} (m : M A) (k : A -> M B) : M B :=
  fun st => let (a, st') := m st in k a st'.

Notation "x <- m ;; k" := (bind m (fun x => k))
  (at level 61, m at next level, right associativity).
Notation "m ;; k" := (bind m (fun _ => k))
  (at level 61, right associativity).

(** [score += n] *)
Definition award (n : Z) : M unit :=
  fun st => (tt, {| score := score st + n; notes := notes st |}).

(** [notes.push(s)] *)
Definition note (s : jsstring) : M unit :=
  fun st => (tt, {| score := score st; notes := notes st ++ [s] |}).

Definition get : M Marking := fun st => (st, st).

(** [let score = 0; const notes = [];] *)
Definition start : Marking := {| score := 0; notes := [] |}.

Definition when (b : bool) (m : M unit) : M unit := if b then m else ret tt.

(** The loop [for (const hits of ...) if (hasAny(t, hits)) n += 1]. *)
Definition countHits (t : jsstring) (groups : list (list jsstring)) : Z :=
  fold_left (fun n g => if hasAny t g then n + 1 else n) groups 0.

Fixpoint join (sep : jsstring) (l : list jsstring) : jsstring :=
  match l with
  | [] => []
  | x :: r =>
    match r with
    | [] => x
    | _ :: _ => x ++ sep ++ join sep r
    end
  end.

Definition nl : jsstring := [10%N].

(** ** The five criteria *)

(** 1) Failures (3 marks) *)
Definition themesFound (t : jsstring) : Z := countHits t (map hits FAILURE_THEMES).

Definition markFailures (t : jsstring) : M Z :=
  if themesFound t >=? 2 then award 3 ;; ret 2
  else if themesFound t =? 1 then
    award 1 ;;
    note (js "Failures: Identify two clear ethical/legal failures (not just one).") ;;
    ret 1
  else
    note (js "Failures: Identify two clear ethical/legal failures.") ;;
    ret 0.

(** 2) Impact (3 marks) *)
Definition mentionsIndividuals (t : jsstring) : bool :=
  hasAny t [js "individual"; js "people"; js "resident"; js "person"; js "community"].
Definition mentionsHarm (t : jsstring) : bool :=
  hasAny t [js "harm"; js "stress"; js "wrongly"; js "misidentif"; js "discrimin"; js "unfair"; js "rights"].
Definition mentionsTrust (t : jsstring) : bool :=
  hasAny t [js "trust"; js "confidence"; js "public trust"; js "reputation"; js "legitimacy"].
Definition mentionsFairness (t : jsstring) : bool :=
  hasAny t [js "fairness"; js "discrimin"; js "unfair"; js "equal"].

Definition markImpact (t : jsstring) : M Z :=
  if (mentionsIndividuals t && mentionsHarm t) && (mentionsTrust t || mentionsFairness t) then
    award 3 ;; ret 2
  else if (mentionsIndividuals t && mentionsHarm t) || mentionsTrust t || mentionsFairness t then
    award 2 ;; ret 1
  else
    award 1 ;;
    note (js "Impact: Explain why the failures mattered (harm to people and/or trust/fairness).") ;;
    ret 0.

(** 3) Recommendations (2 marks) *)
Definition recHits (t : jsstring) : Z := countHits t REC_THEMES.

Definition markRecs (t answerText : jsstring) : M Z :=
  if (recHits t >=? 2) && (actionMarkers answerText >=? 2) then award 2 ;; ret 2
  else if recHits t >=? 1 then
    award 1 ;;
    note (js "Recommendations: Give two practical actions the council should take (not vague).") ;;
    ret 1
  else
    note (js "Recommendations: Provide two practical actions the council should take.") ;;
    ret 0.

(** 4) Ethical/legal language (1 mark) *)
Definition usesTerms (t : jsstring) : bool :=
  hasAny t [js "gdpr"; js "dpia"; js "data protection"; js "privacy"; js "consent"; js "bias"; js "fairness"; js "transparency"].

Definition markLegal (t : jsstring) : M Z :=
  if usesTerms t then award 1 ;; ret 2
  else
    note (js "Language: Use at least one key term (e.g., GDPR, consent, bias, transparency, DPIA).") ;;
    ret 0.

(** 5) Structure (1 mark) *)
Definition hasStructure (t : jsstring) : bool :=
  hasAny t [js "failure 1"; js "failure 2"] ||
  hasAny t [js "1)"; js "2)"; js "3)"] ||
  hasAny t [js "key ethical"; js "why these failures"; js "what should have"].

Definition markStructure (t : jsstring) : M Z :=
  if hasStructure t then award 1 ;; ret 2
  else
    note (js "Structure: Use the template headings so your evaluation is easy to follow.") ;;
    ret 1.

Record Levels := {
  failuresLevel : Z;
  impactLevel : Z;
  recsLevel : Z;
  legalLevel : Z;
  structureLevel : Z
}.

(** The five criteria in the order of the source, on the lower-cased text. *)
Definition criteria (answerText : jsstring) : M Levels :=
  let t := toLowerCase answerText in
  failuresLevel <- markFailures t ;;
  impactLevel <- markImpact t ;;
  recsLevel <- markRecs t answerText ;;
  legalLevel <- markLegal t ;;
  structureLevel <- markStructure t ;;
  ret {| failuresLevel := failuresLevel; impactLevel := impactLevel;
         recsLevel := recsLevel; legalLevel := legalLevel;
         structureLevel := structureLevel |}.

(** Word-range guidance (not scored) *)
Definition lengthNotes (wc : Z) : M unit :=
  when (wc <? 100) (note (js "Length: Aim for 100–250 words (yours is a bit short).")) ;;
  when (wc >? 250) (note (js "Length: Aim for 100–250 words (yours is a bit long).")).

(** [score = Math.max(0, Math.min(10, score))] *)
Definition clampScore : M unit :=
  fun st => (tt, {| score := Z.max 0 (Z.min 10 (score st)); notes := notes st |}).

(** ** The result *)

Record Tag := { name : jsstring; status : jsstring }.

Record Grid := {
  ethical : jsstring;
  impact : jsstring;
  legal : jsstring;
  recs : jsstring;
  structure : jsstring
}.

(** The object [markEthicsResponse] returns; a field that is [null] or
    not set is [None]. *)
Module Res.
Record t := {
  gated : bool;
  wordCount : Z;
  message : option jsstring;
  score : option Z;
  feedback : option jsstring;
  strengths : option (list jsstring);
  tags : option (list Tag);
  grid : option Grid;
  framework : option Framework;
  modelAnswer : option jsstring
}.
End Res.

Definition GATE_MESSAGE : jsstring :=
  js "Please add to your answer." ++ nl ++
  js "This response is too short to demonstrate evaluation." ++ nl ++
  js "Aim for 100–250 words and address all parts of the question.".

Definition mkStrengths (lv : Levels) (usesTerms hasStructure : bool) : list jsstring :=
  (if failuresLevel lv >=? 2 then [js "You identified at least two relevant ethical/legal failures."] else []) ++
  (if impactLevel lv >=? 1 then [js "You explained why the issues matter for people and/or public trust."] else []) ++
  (if recsLevel lv >=? 1 then [js "You suggested practical actions to improve responsible use of AI."] else []) ++
  (if usesTerms then [js "You used appropriate ethical/legal terms (e.g., consent, bias, GDPR)."] else []) ++
  (if hasStructure then [js "Your response followed a clear structure, which makes your evaluation easy to follow."] else []).

Definition mkTags (t : jsstring) (lv : Levels) : list Tag := [
  {| name := js "Ethical awareness";
     status := tagStatus (Z.min 2 (Z.max (failuresLevel lv) (impactLevel lv))) |};
  {| name := js "Legal awareness";
     status := tagStatus (if legalLevel lv >=? 2 then 2
                          else if hasAny t [js "consent"; js "privacy"; js "data protection"] then 1 else 0) |};
  {| name := js "Impact evaluation";
     status := tagStatus (if impactLevel lv >=? 2 then 2 else if impactLevel lv =? 1 then 1 else 0) |};
  {| name := js "Practical judgement";
     status := tagStatus (if recsLevel lv >=? 2 then 2 else if recsLevel lv =? 1 then 1 else 0) |};
  {| name := js "Structure & clarity";
     status := tagStatus (if structureLevel lv >=? 2 then 2 else if structureLevel lv =? 1 then 1 else 0) |}
].

Definition mkGrid (lv : Levels) (usesTerms : bool) : Grid := {|
  ethical := statusFromLevel (failuresLevel lv);
  impact := statusFromLevel (if impactLevel lv >=? 2 then 2 else if impactLevel lv =? 1 then 1 else 0);
  legal := statusFromLevel (if legalLevel lv >=? 2 then 2 else if usesTerms then 1 else 0);
  recs := statusFromLevel (recsLevel lv);
  structure := statusFromLevel (structureLevel lv)
|}.

Definition mkFeedback (notes : list jsstring) : jsstring :=
  if (length notes =? 0)%nat
  then js "Strong response — you identified key issues, explained impact, and gave practical improvements."
  else js "To improve:" ++ nl ++ js "- " ++ join (nl ++ js "- ") notes.

(** ** Deterministic marker *)

Definition markEthicsResponse (answerText : jsstring) : Res.t :=
  let wc := wordCount answerText in
  if wc <? 50 then
    {| Res.gated := true;
       Res.wordCount := wc;
       Res.message := Some GATE_MESSAGE;
       Res.score := None;
       Res.feedback := None;
       Res.strengths := None;
       Res.tags := None;
       Res.grid := None;
       Res.framework := None;
       Res.modelAnswer := None |}
  else
    let t := toLowerCase answerText in
    fst ((lv <- criteria answerText ;;
          lengthNotes wc ;;
          clampScore ;;
          st <- get ;;
          let strengths := mkStrengths lv (usesTerms t) (hasStructure t) in
          let strengthsTop := firstn 3 strengths in
          ret {| Res.gated := false;
                 Res.wordCount := wc;
                 Res.message := None;
                 Res.score := Some (score st);
                 Res.strengths := Some strengthsTop;
                 Res.tags := Some (mkTags t lv);
                 Res.grid := Some (mkGrid lv (usesTerms t));
                 Res.framework := Some FRAMEWORK;
                 Res.feedback := Some (mkFeedback (notes st));
                 Res.modelAnswer := Some MODEL_ANSWER |}) start).

(** The sum of the five awards, before the clamp. *)
Definition rawScore (answerText : jsstring) : Z :=
  score (snd (criteria answerText start)).

Definition levels (answerText : jsstring) : Levels :=
  fst (criteria answerText start).

(** ** The copy of the marker in [server.js]

    The same helpers and model answer; the rubric tables are local to the
    function, the result has no strengths, tags, grid or framework. *)
Module Server.

Definition failureThemes : list Theme := [
  {| key := js "consent/transparency";
     hits := [js "consent"; js "transparent"; js "transparency"; js "informed"; js "notice"; js "public informed"] |};
  {| key := js "gdpr/lawful basis";
     hits := [js "gdpr"; js "lawful"; js "lawful basis"; js "data protection"; js "dpa"; js "privacy"] |};
  {| key := js "bias/fairness";
     hits := [js "bias"; js "biased"; js "fair"; js "fairness"; js "discrimin"; js "equal"] |};
  {| key := js "accuracy/misidentification";
     hits := [js "accur"; js "misidentif"; js "false positive"; js "false negative"; js "wrongly"] |};
  {| key := js "security/storage";
     hits := [js "secure"; js "security"; js "stored"; js "storage"; js "breach"; js "access control"] |};
  {| key := js "dPIA/governance";
     hits := [js "dpia"; js "impact assessment"; js "governance"; js "oversight"; js "audit"] |}
].

Definition recThemes : list (list jsstring) := [
  [js "dpia"; js "impact assessment"];
  [js "consent"; js "transparen"; js "public notice"];
  [js "bias"; js "fairness testing"; js "independent testing"];
  [js "accuracy testing"; js "pilot"; js "validate"];
  [js "data minim"; js "retention"; js "delete"];
  [js "security"; js "access control"; js "encryption"];
  [js "limits"; js "where"; js "when"; js "policy"; js "governance"]
].

Definition themesFound (t : jsstring) : Z := countHits t (map hits failureThemes).

Definition markFailures (t : jsstring) : M unit :=
  if themesFound t >=? 2 then award 3
  else if themesFound t =? 1 then
    award 1 ;;
    note (js "Failures: Identify two clear ethical/legal failures (not just one).")
  else note (js "Failures: Identify two clear ethical/legal failures.").

Definition markImpact (t : jsstring) : M unit :=
  let mentionsIndividuals := hasAny t [js "individual"; js "people"; js "resident"; js "person"; js "community"] in
  let mentionsHarm := hasAny t [js "harm"; js "stress"; js "wrongly"; js "misidentif"; js "discrimin"; js "unfair"; js "rights"] in
  let mentionsTrust := hasAny t [js "trust"; js "confidence"; js "public trust"; js "reputation"; js "legitimacy"] in
  if (mentionsIndividuals && mentionsHarm) &&
     (mentionsTrust || hasAny t [js "fairness"; js "discrimin"; js "unfair"])
  then award 3
  else if (mentionsIndividuals && mentionsHarm) || mentionsTrust then award 2
  else
    award 1 ;;
    note (js "Impact: Explain why the failures mattered (harm to people and/or trust/fairness).").

Definition recHits (t : jsstring) : Z := countHits t recThemes.

Definition markRecs (t answerText : jsstring) : M unit :=
  if (recHits t >=? 2) && (actionMarkers answerText >=? 2) then award 2
  else if recHits t >=? 1 then
    award 1 ;;
    note (js "Recommendations: Give two practical actions the council should take (not vague).")
  else note (js "Recommendations: Provide two practical actions the council should take.").

Definition markLegal (t : jsstring) : M unit :=
  let usesTerms := hasAny t [js "gdpr"; js "dpia"; js "data protection"; js "privacy"; js "consent"; js "bias"; js "fairness"; js "transparency"] in
  if usesTerms then award 1
  else note (js "Language: Use at least one key term (e.g., GDPR, consent, bias, transparency, DPIA).").

Definition markStructure (t : jsstring) : M unit :=
  let hasStructure :=
    hasAny t [js "failure 1"; js "failure 2"] ||
    hasAny t [js "1)"; js "2)"; js "3)"] ||
    hasAny t [js "key ethical"; js "why these failures"; js "what should have"] in
  if hasStructure then award 1
  else note (js "Structure: Use the template headings so your evaluation is easy to follow.").

Definition criteria (answerText : jsstring) : M unit :=
  let t := toLowerCase answerText in
  markFailures t ;;
  markImpact t ;;
  markRecs t answerText ;;
  markLegal t ;;
  markStructure t.

(** [bands] is only ever [null]. *)
Module Res.
Record t := {
  gated : bool;
  wordCount : Z;
  message : option jsstring;
  score : option Z;
  bands : option unit;
  feedback : option jsstring;
  modelAnswer : option jsstring
}.
End Res.

Definition markEthicsResponse (answerText : jsstring) : Res.t :=
  let wc := wordCount answerText in
  if wc <? 50 then
    {| Res.gated := true;
       Res.wordCount := wc;
       Res.message := Some GATE_MESSAGE;
       Res.score := None;
       Res.bands := None;
       Res.feedback := None;
       Res.modelAnswer := None |}
  else
    fst ((criteria answerText ;;
          lengthNotes wc ;;
          clampScore ;;
          st <- get ;;
          ret {| Res.gated := false;
                 Res.wordCount := wc;
                 Res.message := None;
                 Res.score := Some (score st);
                 Res.bands := None;
                 Res.feedback := Some (mkFeedback (notes st));
                 Res.modelAnswer := Some MODEL_ANSWER |}) start).

Definition rawScore (answerText : jsstring) : Z :=
  score (snd (criteria answerText start)).

End Server.

(** ** Sample answers *)

(** Sixty words, every rubric keyword of the full-marks scenario, and no
    word of harm. *)
Definition answer_keywords : jsstring := js
"1) Key problems: the council used cameras without consent or transparency, so residents were never told. 2) The system showed bias and lacked fairness, which damaged trust among residents of the town. 3) The council should publish a DPIA before any use. One more action is to test the system and report openly on the results every year going forward.".

(** The same answer, naming the harm done. *)
Definition answer_full : jsstring := js
"1) Key problems: the council used cameras without consent or transparency, so residents were never told. 2) The system showed bias and lacked fairness, which caused harm and damaged trust among residents. 3) The council should publish a DPIA before any use. One more action is to test the system and report openly on the results every year going forward.".

(** Sixty words without any rubric keyword or heading. *)
Definition answer_plain : jsstring := js
"The town put cameras on every street and nobody said much about it at first. Later some shops began to complain that the new cameras looked ugly and cost too much money to run. I think the town could have spent that money on parks or roads, because cameras do not make a town a nicer place to live in.".

(** Fifty-two words whose only rubric keyword is fairness. *)
Definition answer_fairness : jsstring := js
"The town put cameras on every street last spring and nobody said much about it at first. Later some shops began to complain that the new cameras looked ugly and cost too much money to run. I think the town forgot about fairness and that was a big mistake for us all.".

(** A sentence that triggers the lawful-basis and the storage themes. *)
Definition sentence_two_themes : jsstring := js
" It was not lawful and the pictures were stored badly.".

(** ** Notions used in the statements *)

(** A string of white space only. *)
Definition blank (w : jsstring) : Prop := forallb isWhiteSpace w = true.

(** The marks a step adds to the score. *)
Definition points {A : Type} (m : M A) : Z := score (snd (m start)).

(** A step that only adds to the score and appends notes: what it returns,
    the marks it adds and the notes it appends do not depend on the state
    it starts from. *)
Definition framed {A : Type} (m : M A) : Prop :=
  forall st, m st = (fst (m start),
                     {| score := score st + points m;
                        notes := notes st ++ notes (snd (m start)) |}).


(** ** The routes of the server

    The two source files hold the same helpers and route handlers around
    their marker. *)

From Stdlib Require DecimalString.

(** [s.slice(0, max)] for an integer [max]: a negative end counts from the
    end of the string. *)
Definition slice0 (s : jsstring) (max : Z) : jsstring :=
  let len := Z.of_nat (length s) in
  let final := if max <? 0 then Z.max (len + max) 0 else Z.min max len in
  firstn (Z.to_nat final) s.

(** [clampStr(s, max)] on a string, or on a field that is missing
    ([undefined] or [null], [None] here), for which [String(s || "")] is
    the empty string. *)
Definition clampStr (s : option jsstring) (max : Z) : jsstring :=
  slice0 (match s with Some x => x | None => [] end) max.

Definition TEMPLATE_TEXT : jsstring := js
"1) Key ethical or legal failures
- Failure 1:
- Failure 2:

2) Why these failures mattered
- Impact on individuals:
- Impact on trust or fairness:

3) What should have been done differently
- Action 1:
- Action 2:".

(** The answer of [POST /api/mark]. *)
Module Mark.
Record response (R : Type) := {
  status : Z;
  ok : bool;
  error : option jsstring;
  result : option R
}.
Arguments status {R} _.
Arguments ok {R} _.
Arguments error {R} _.
Arguments result {R} _.
End Mark.

(** [requireSession] followed by the handler of [/api/mark], for either
    marker. [sessionValid] is what [isSessionValid(req)] returns;
    [answerText] is [req.body?.answerText]. *)
Definition markRoute {R : Type} (marker : jsstring -> R)
    (sessionValid : bool) (answerText : option jsstring) : Mark.response R :=
  if negb sessionValid then
    {| Mark.status := 401; Mark.ok := false;
       Mark.error := Some (js "unauthorized"); Mark.result := None |}
  else
    let answerText := clampStr answerText 6000 in
    let result := marker answerText in
    {| Mark.status := 200; Mark.ok := true;
       Mark.error := None; Mark.result := Some result |}.

Definition apiMark : bool -> option jsstring -> Mark.response Res.t :=
  markRoute markEthicsResponse.

(** [Buffer.from(s)]: the UTF-8 bytes of a string; a surrogate that is not
    part of a pair is encoded as U+FFFD. *)
Definition isHighSurrogate (c : N) : bool := ((55296 <=? c) && (c <=? 56319))%N.
Definition isLowSurrogate (c : N) : bool := ((56320 <=? c) && (c <=? 57343))%N.

Definition utf8_3 (c : N) : list N :=
  [N.lor 224 (N.shiftr c 12); N.lor 128 (N.land (N.shiftr c 6) 63);
   N.lor 128 (N.land c 63)].

Fixpoint utf8 (s : jsstring) : list N :=
  match s with
  | [] => []
  | c :: r =>
    if (c <? 128)%N then c :: utf8 r
    else if (c <? 2048)%N then
      N.lor 192 (N.shiftr c 6) :: N.lor 128 (N.land c 63) :: utf8 r
    else if isHighSurrogate c then
      match r with
      | d :: r' =>
        if isLowSurrogate d then
          let cp := (65536 + N.shiftl (c - 55296) 10 + (d - 56320))%N in
          N.lor 240 (N.shiftr cp 18) :: N.lor 128 (N.land (N.shiftr cp 12) 63)
          :: N.lor 128 (N.land (N.shiftr cp 6) 63) :: N.lor 128 (N.land cp 63)
          :: utf8 r'
        else utf8_3 65533 ++ utf8 r
      | [] => utf8_3 65533
      end
    else if isLowSurrogate c then utf8_3 65533 ++ utf8 r
    else utf8_3 c ++ utf8 r
  end.

(** [crypto.timingSafeEqual] on buffers of the same length. *)
Fixpoint timingSafeEqual (a b : list N) : bool :=
  match a, b with
  | [], [] => true
  | x :: a', y :: b' => (x =? y)%N && timingSafeEqual a' b'
  | _, _ => false
  end.

(** The answer of [POST /api/unlock]. [sessionCookieSet] tells that
    [setSessionCookie(res)] was called; what the cookie holds (the clock,
    [SESSION_MINUTES]) is not modelled. *)
Module Unlock.
Record response := {
  status : Z;
  ok : bool;
  error : option jsstring;
  sessionCookieSet : bool
}.
End Unlock.

(** The default of [ACCESS_CODE]. *)
Definition ACCESS_CODE_DEFAULT : jsstring := js "FETHINK-ETHICS1".

(** The handler of [/api/unlock]; [code] is [req.body?.code], a string or
    missing. *)
Definition apiUnlock (ACCESS_CODE : jsstring) (code : option jsstring) : Unlock.response :=
  let code := trim (match code with Some c => c | None => [] end) in
  if negb (truthy code) then
    {| Unlock.status := 400; Unlock.ok := false;
       Unlock.error := Some (js "missing_code"); Unlock.sessionCookieSet := false |}
  else
    let a := utf8 code in
    let b := utf8 ACCESS_CODE in
    if negb (length a =? length b)%nat || negb (timingSafeEqual a b) then
      {| Unlock.status := 401; Unlock.ok := false;
         Unlock.error := Some (js "incorrect_code"); Unlock.sessionCookieSet := false |}
    else
      {| Unlock.status := 200; Unlock.ok := true; Unlock.error := None;
         Unlock.sessionCookieSet := true |}.

(** ** The page script *)

Module Client.

(** [String(n)] for an integer. *)
Definition numToString (n : Z) : jsstring :=
  js (DecimalString.NilZero.string_of_int (Z.to_int n)).

Definition wc (text : jsstring) : Z :=
  let t := trim text in
  if truthy t then Z.of_nat (length (filter truthy (split_ws t))) else 0.

(** The elements the marking writes to, and the gate. *)
Record UI := {
  gateDisplay : jsstring;
  gateMsg : jsstring;
  scoreBig : jsstring;
  wordCountBig : jsstring;
  feedbackBox : jsstring;
  modelWrapDisplay : jsstring;
  modelAnswerEl : jsstring;
  submitDisabled : bool
}.

Definition showGate (message : jsstring) (ui : UI) : UI :=
  {| gateDisplay := js "flex"; gateMsg := message;
     scoreBig := scoreBig ui; wordCountBig := wordCountBig ui;
     feedbackBox := feedbackBox ui; modelWrapDisplay := modelWrapDisplay ui;
     modelAnswerEl := modelAnswerEl ui; submitDisabled := submitDisabled ui |}.

Definition resetFeedback (ui : UI) : UI :=
  {| gateDisplay := gateDisplay ui; gateMsg := gateMsg ui;
     scoreBig := js "—"; wordCountBig := js "—";
     feedbackBox := []; modelWrapDisplay := js "none";
     modelAnswerEl := []; submitDisabled := submitDisabled ui |}.

Definition setScore (s : jsstring) (ui : UI) : UI :=
  {| gateDisplay := gateDisplay ui; gateMsg := gateMsg ui;
     scoreBig := s; wordCountBig := wordCountBig ui;
     feedbackBox := feedbackBox ui; modelWrapDisplay := modelWrapDisplay ui;
     modelAnswerEl := modelAnswerEl ui; submitDisabled := submitDisabled ui |}.

Definition setWordCount (s : jsstring) (ui : UI) : UI :=
  {| gateDisplay := gateDisplay ui; gateMsg := gateMsg ui;
     scoreBig := scoreBig ui; wordCountBig := s;
     feedbackBox := feedbackBox ui; modelWrapDisplay := modelWrapDisplay ui;
     modelAnswerEl := modelAnswerEl ui; submitDisabled := submitDisabled ui |}.

Definition setFeedback (s : jsstring) (ui : UI) : UI :=
  {| gateDisplay := gateDisplay ui; gateMsg := gateMsg ui;
     scoreBig := scoreBig ui; wordCountBig := wordCountBig ui;
     feedbackBox := s; modelWrapDisplay := modelWrapDisplay ui;
     modelAnswerEl := modelAnswerEl ui; submitDisabled := submitDisabled ui |}.

Definition setModel (display text : jsstring) (ui : UI) : UI :=
  {| gateDisplay := gateDisplay ui; gateMsg := gateMsg ui;
     scoreBig := scoreBig ui; wordCountBig := wordCountBig ui;
     feedbackBox := feedbackBox ui; modelWrapDisplay := display;
     modelAnswerEl := text; submitDisabled := submitDisabled ui |}.

Definition setModelDisplay (display : jsstring) (ui : UI) : UI :=
  setModel display (modelAnswerEl ui) ui.

Definition setSubmitDisabled (b : bool) (ui : UI) : UI :=
  {| gateDisplay := gateDisplay ui; gateMsg := gateMsg ui;
     scoreBig := scoreBig ui; wordCountBig := wordCountBig ui;
     feedbackBox := feedbackBox ui; modelWrapDisplay := modelWrapDisplay ui;
     modelAnswerEl := modelAnswerEl ui; submitDisabled := b |}.

(** [x || d] on a string field that may be null. *)
Definition orElse (x : option jsstring) (d : jsstring) : jsstring :=
  match x with
  | Some s => if truthy s then s else d
  | None => d
  end.

(** The click handler of the template button: the new value of the answer
    box. *)
Definition insertTemplate (TEMPLATE_TEXT value : jsstring) : jsstring :=
  if negb (truthy TEMPLATE_TEXT) then value
  else
    let existing := trim value in
    if negb (truthy existing) then TEMPLATE_TEXT
    else TEMPLATE_TEXT ++ nl ++ nl ++ js "---" ++ nl ++ nl ++ existing.

(** [mark()]: the page after the click on the submit button. [post] is the
    request to [/api/mark] with the text sent; [None] is a failed request
    (the [catch] branch). The JSON transport is taken as the identity on
    the fields read. *)
Definition mark (post : jsstring -> option (Mark.response Res.t))
    (value : jsstring) (ui : UI) : UI :=
  let ui := resetFeedback ui in
  let answerText := trim value in
  let words := wc answerText in
  if words =? 0 then
    setFeedback (js "Write your answer first (aim for 100–250 words).") ui
  else
    let ui := setSubmitDisabled true ui in
    let ui := setFeedback (js "Marking…") ui in
    let ui := setWordCount (numToString words) ui in
    match post answerText with
    | None =>
      setSubmitDisabled false (setFeedback (js "Network issue. Please try again.") ui)
    | Some data =>
      if Mark.status data =? 401 then
        let ui := showGate (js "Session expired. Please re-enter the access code from your Payhip lesson.") ui in
        setSubmitDisabled false (setSubmitDisabled false ui)
      else
        match Mark.result data with
        | None =>
          setSubmitDisabled false
            (setFeedback (js "Could not mark your answer. Please try again.") ui)
        | Some result =>
          if negb (Mark.ok data) then
            setSubmitDisabled false
              (setFeedback (js "Could not mark your answer. Please try again.") ui)
          else
            let ui := setWordCount (numToString (Res.wordCount result)) ui in
            if Res.gated result then
              let ui := setScore (js "—") ui in
              let ui := setFeedback
                          (orElse (Res.message result) (js "Please add to your answer.")) ui in
              let ui := setModel (js "none") [] ui in
              setSubmitDisabled false ui
            else
              let ui := setScore
                          (match Res.score result with
                           | Some s => numToString s
                           | None => js "null"
                           end ++ js "/10") ui in
              let ui := setFeedback (orElse (Res.feedback result) []) ui in
              let ui :=
                match Res.modelAnswer result with
                | Some m =>
                  if truthy m then setModel (js "block") m ui
                  else setModelDisplay (js "none") ui
                | None => setModelDisplay (js "none") ui
                end in
              setSubmitDisabled false ui
        end
    end.

End Client.

(** ** Notions used in the further statements *)

(** Two code units that differ at most in the case of a Basic Latin
    letter. *)
Definition sameFold (c d : N) : Prop := canonicalize c = canonicalize d.

(** The notes of an answer past the gate, length guidance included. *)
Definition finalNotes (answerText : jsstring) : list jsstring :=
  notes (snd (lengthNotes (wordCount answerText) (snd (criteria answerText start)))).

(** A piece of text the page can send: an answer the page has trimmed. *)
Definition answer_nine_words : jsstring :=
  js "The town put cameras on every street last spring".

Definition optFold (a b : option N) : Prop :=
  match a, b with
  | Some x, Some y => sameFold x y
  | None, None => True
  | _, _ => False
  end.

(** A string of Basic Latin characters. *)
Definition asciiOnly (s : jsstring) : Prop := Forall (fun c => (c < 128)%N) s.

(** The page before any marking. *)
Definition page_start : Client.UI :=
  {| Client.gateDisplay := js "none"; Client.gateMsg := [];
     Client.scoreBig := js "—"; Client.wordCountBig := js "—";
     Client.feedbackBox := []; Client.modelWrapDisplay := js "none";
     Client.modelAnswerEl := []; Client.submitDisabled := false |}.

(** The full answer written out twice: 120 words. *)
Definition answer_long : jsstring := answer_full ++ js " " ++ answer_full.

(** What the page gets back from [POST /api/mark]. [express.json({ limit:
    "1mb" })] stands in front of the route: [tooLarge] tells whether the
    body built from the text sent is over the limit; it is then refused
    with 413 and a body that is not JSON, which the page meets in its
    [catch] branch. *)
Definition serverReply (tooLarge : jsstring -> bool) (sessionValid : bool)
    (text : jsstring) : option (Mark.response Res.t) :=
  if tooLarge text then None else Some (apiMark sessionValid (Some text)).

(** Fifty words that mention people, harm and "equal", and neither
    trust nor another fairness term. *)
Definition answer_equal : jsstring := js
"The town put cameras on every street and nobody said much about it at first. Later some shops began to complain that the new cameras looked ugly and cost too much money to run. I think the cameras did harm to people and did not treat us all as equal.".
(** * Properties *)

(** ** White space and the word count *)

Lemma trimStart_spec (s : jsstring) :
  exists w, s = w ++ trimStart s /\ blank w /\
            (forall c r, trimStart s = c :: r -> isWhiteSpace c = false).
Proof.
  induction s as [|c s IH]; simpl.
  - exists []. repeat split. intros c r H. discriminate H.
  - destruct (isWhiteSpace c) eqn:Hc.
    + destruct IH as (w & Hs & Hw & Hhd).
      exists (c :: w). repeat split.
      * simpl. now rewrite <- Hs.
      * unfold blank. simpl. now rewrite Hc.
      * exact Hhd.
    + exists []. repeat split. intros c' r H. now inversion H; subst.
Qed.

Lemma trimEnd_spec (s : jsstring) :
  exists w, s = trimEnd s ++ w /\ blank w /\
            (forall r c, trimEnd s = r ++ [c] -> isWhiteSpace c = false).
Proof.
  induction s as [|c s IH]; simpl.
  - exists []. repeat split. intros [|x r] c H; discriminate H.
  - destruct IH as (w & Hs & Hw & Hlast).
    destruct (trimEnd s) as [|x r'] eqn:Ht.
    + simpl in Hs. subst w.
      destruct (isWhiteSpace c) eqn:Hc.
      * exists (c :: s). repeat split.
        -- unfold blank. simpl. now rewrite Hc.
        -- intros [|y r] d H; discriminate H.
      * exists s. repeat split; trivial.
        intros [|y r] d H; simpl in H.
        -- now inversion H; subst.
        -- inversion H as [[Hy Hr]]. now destruct r.
    + exists w. repeat split; trivial.
      * simpl. now rewrite Hs at 1.
      * intros [|y r] d H; simpl in H; [discriminate H|].
        inversion H as [[Hy Hr]]. now apply (Hlast r d).
Qed.

Lemma runs_from_trimStart (s : jsstring) :
  runs_from true (trimStart s) = runs_from true s.
Proof.
  induction s as [|c s IH]; simpl; trivial.
  destruct (isWhiteSpace c) eqn:Hc; trivial.
  simpl. now rewrite Hc.
Qed.

Lemma runs_from_cons (b : bool) (c : N) (r : jsstring) :
  runs_from b (c :: r) =
  if isWhiteSpace c then runs_from true r
  else ((if b then 1 else 0) + runs_from false r)%nat.
Proof. reflexivity. Qed.

Lemma runs_from_trimEnd (s : jsstring) :
  forall b, runs_from b (trimEnd s) = runs_from b s.
Proof.
  induction s as [|c s IH]; intro b; trivial.
  cbn [trimEnd]. rewrite (runs_from_cons b c s).
  destruct (trimEnd s) as [|x r'] eqn:Ht.
  - rewrite <- !IH.
    destruct (isWhiteSpace c) eqn:Hc; simpl; rewrite ?Hc; trivial.
  - rewrite runs_from_cons. now rewrite !IH.
Qed.

Lemma runs_from_trim (s : jsstring) :
  runs_from true (trim s) = runs_from true s.
Proof.
  unfold trim. now rewrite runs_from_trimEnd, runs_from_trimStart.
Qed.

Lemma split_go_count (s : jsstring) :
  forall b cur, (b = true -> cur = []) ->
  length (filter truthy (split_go b cur s)) =
  ((if truthy cur then 1 else 0) + runs_from (negb (truthy cur)) s)%nat.
Proof.
  induction s as [|c s IH]; intros b cur Hb; simpl.
  - destruct (truthy cur); reflexivity.
  - destruct (isWhiteSpace c) eqn:Hc.
    + destruct b.
      * rewrite (Hb eq_refl). simpl. now rewrite IH.
      * simpl. destruct (truthy cur); simpl; now rewrite (IH true []).
    + rewrite IH by discriminate.
      assert (Ht : truthy (cur ++ [c]) = true) by now destruct cur.
      rewrite Ht. destruct (truthy cur); reflexivity.
Qed.

Lemma wordCount_eq_runs (s : jsstring) :
  wordCount s = Z.of_nat (nonWhitespaceRuns s).
Proof.
  unfold wordCount, nonWhitespaceRuns, split_ws.
  rewrite <- runs_from_trim.
  destruct (trim s) as [|c r] eqn:Ht.
  - reflexivity.
  - cbn [truthy]. now rewrite split_go_count by discriminate.
Qed.

Lemma runs_from_blank_l (w s : jsstring) :
  blank w -> runs_from true (w ++ s) = runs_from true s.
Proof.
  unfold blank.
  induction w as [|c w IH]; simpl; trivial.
  intro H. apply andb_true_iff in H as [Hc Hw]. rewrite Hc. auto.
Qed.

Lemma runs_from_blank_cons (w s : jsstring) (b : bool) :
  blank w -> w <> [] -> runs_from b (w ++ s) = runs_from true s.
Proof.
  destruct w as [|c w]; [congruence|].
  unfold blank. simpl. intros H _.
  apply andb_true_iff in H as [Hc Hw]. rewrite Hc.
  now apply runs_from_blank_l.
Qed.

Lemma runs_from_blank_r (s w : jsstring) :
  blank w -> forall b, runs_from b (s ++ w) = runs_from b s.
Proof.
  intro Hw.
  induction s as [|c s IH]; intro b; simpl.
  - destruct w as [|x w]; trivial.
    rewrite <- (app_nil_r (x :: w)).
    rewrite runs_from_blank_cons; trivial. discriminate.
  - destruct (isWhiteSpace c); now rewrite IH.
Qed.

Lemma runs_from_widen (a w w' s : jsstring) :
  blank w -> w <> [] -> blank w' ->
  forall b, runs_from b (a ++ w ++ w' ++ s) = runs_from b (a ++ w ++ s).
Proof.
  intros Hw Hne Hw'.
  induction a as [|c a IH]; intro b; simpl.
  - rewrite (runs_from_blank_cons w (w' ++ s) b), (runs_from_blank_cons w s b)
      by trivial.
    now apply runs_from_blank_l.
  - destruct (isWhiteSpace c); now rewrite IH.
Qed.

(** C7. [wordCount] is 0 when the trimmed input is empty and is always the
    number of maximal runs of non-white-space characters; so it does not
    change when white space is added in front or behind, nor when a run of
    white space inside the text is made longer; ["a  b   c"] has 3 words. *)
Theorem wordCount_runs (s : jsstring) :
  (trim s = [] -> wordCount s = 0) /\
  wordCount s = Z.of_nat (nonWhitespaceRuns s) /\
  (forall l r, blank l -> blank r -> wordCount (l ++ s ++ r) = wordCount s) /\
  (forall a w w' b, s = a ++ w ++ b -> blank w -> w <> [] -> blank w' ->
     wordCount (a ++ w ++ w' ++ b) = wordCount s) /\
  wordCount (js "a  b   c") = 3.
Proof.
  split; [|split; [|split; [|split]]].
  - intro H. unfold wordCount. now rewrite H.
  - apply wordCount_eq_runs.
  - intros l r Hl Hr. rewrite !wordCount_eq_runs. unfold nonWhitespaceRuns.
    now rewrite runs_from_blank_l, runs_from_blank_r.
  - intros a w w' b -> Hw Hne Hw'. rewrite !wordCount_eq_runs.
    unfold nonWhitespaceRuns. now rewrite runs_from_widen.
  - reflexivity.
Qed.

Lemma wordCount_runs_witness :
  wordCount (js "  " ++ js "the town hall" ++ js " ") = wordCount (js "the town hall") /\
  wordCount (js "the" ++ js " " ++ js "  " ++ js "town hall") = wordCount (js "the town hall") /\
  wordCount (js "the town hall") = Z.of_nat (nonWhitespaceRuns (js "the town hall")).
Proof.
  destruct (wordCount_runs (js "the town hall")) as (_ & Hruns & Hout & Hin & _).
  split; [|split].
  - apply Hout; reflexivity.
  - apply Hin; [reflexivity | reflexivity | discriminate | reflexivity].
  - exact Hruns.
Defined.

(** ** Substrings, lower case and the detectors *)

Lemma startsWith_spec (n s : jsstring) :
  startsWith n s = true <-> exists q, s = n ++ q.
Proof.
  revert s. induction n as [|a n IH]; intro s; simpl.
  - split; [intros _; now exists s | trivial].
  - destruct s as [|b s].
    + split; [discriminate | intros [q Hq]; discriminate Hq].
    + rewrite andb_true_iff, N.eqb_eq, IH. split.
      * intros [-> [q ->]]. now exists q.
      * intros [q Hq]. inversion Hq; subst. split; trivial. now exists q.
Qed.

Lemma includes_spec (s n : jsstring) :
  includes s n = true <-> exists p q, s = p ++ n ++ q.
Proof.
  induction s as [|c s IH].
  - cbn [includes]. rewrite orb_false_r, startsWith_spec. split.
    + intros [q Hq]. now exists [], q.
    + intros (p & q & H). symmetry in H.
      apply app_eq_nil in H as [-> H]. exists q. now rewrite H.
  - cbn [includes]. rewrite orb_true_iff, startsWith_spec, IH. split.
    + intros [[q Hq] | (p & q & Hq)].
      * now exists [], q.
      * exists (c :: p), q. now rewrite Hq.
    + intros ([|x p] & q & Hq).
      * left. now exists q.
      * right. inversion Hq; subst. now exists p, q.
Qed.

Lemma includes_app (s n p q : jsstring) :
  includes s n = true -> includes (p ++ s ++ q) n = true.
Proof.
  rewrite !includes_spec. intros (x & y & ->).
  exists (p ++ x), (y ++ q). now rewrite <- !app_assoc.
Qed.

Lemma includes_trans (s n m : jsstring) :
  includes s n = true -> includes n m = true -> includes s m = true.
Proof.
  intros Hs Hn. apply includes_spec in Hs as (p & q & ->).
  now apply includes_app.
Qed.

Lemma toLowerCase_app (s s' : jsstring) :
  toLowerCase (s ++ s') = toLowerCase s ++ toLowerCase s'.
Proof. apply flat_map_app. Qed.

Lemma includes_toLowerCase (s n : jsstring) :
  includes s n = true -> includes (toLowerCase s) (toLowerCase n) = true.
Proof.
  rewrite !includes_spec. intros (p & q & ->).
  exists (toLowerCase p), (toLowerCase q). now rewrite !toLowerCase_app.
Qed.

Lemma lowerUnit_idem (c : N) : toLowerCase (lowerUnit c) = lowerUnit c.
Proof.
  unfold toLowerCase, lowerUnit, isUpperAscii.
  destruct ((65 <=? c)%N && (c <=? 90)%N) eqn:Hup.
  - apply andb_true_iff in Hup as [H1 H2].
    apply N.leb_le in H1, H2. cbn [flat_map]. rewrite app_nil_r.
    assert (Hlow : ((65 <=? c + 32)%N && (c + 32 <=? 90)%N) = false).
    { apply andb_false_iff. right. apply N.leb_gt. lia. }
    assert (H304 : (c + 32 =? 304)%N = false) by (apply N.eqb_neq; lia).
    assert (H8490 : (c + 32 =? 8490)%N = false) by (apply N.eqb_neq; lia).
    now rewrite Hlow, H304, H8490.
  - destruct (c =? 304)%N eqn:H304; [reflexivity|].
    destruct (c =? 8490)%N eqn:H8490; [reflexivity|].
    cbn [flat_map]. now rewrite Hup, H304, H8490.
Qed.

Lemma toLowerCase_idem (s : jsstring) :
  toLowerCase (toLowerCase s) = toLowerCase s.
Proof.
  induction s as [|c s IH]; trivial.
  change (toLowerCase (c :: s)) with (lowerUnit c ++ toLowerCase s).
  now rewrite toLowerCase_app, lowerUnit_idem, IH.
Qed.

Lemma hasAny_spec (t : jsstring) (needles : list jsstring) :
  hasAny t needles = true <->
  exists n, In n needles /\ includes (toLowerCase t) n = true.
Proof. unfold hasAny. apply existsb_exists. Qed.

Lemma hasAny_none (t : jsstring) (needles : list jsstring) :
  (forall n, In n needles -> includes (toLowerCase t) n = false) ->
  hasAny t needles = false.
Proof.
  intro H. destruct (hasAny t needles) eqn:E; trivial.
  apply hasAny_spec in E as (n & Hin & Hn). now rewrite (H n Hin) in Hn.
Qed.

Lemma hasAny_incl (t : jsstring) (l l' : list jsstring) :
  incl l l' -> hasAny t l = true -> hasAny t l' = true.
Proof.
  intros Hincl H. apply hasAny_spec in H as (n & Hin & Hn).
  apply hasAny_spec. exists n. auto.
Qed.

Lemma hasAny_longer (t p q : jsstring) (l : list jsstring) :
  hasAny t l = true -> hasAny (p ++ t ++ q) l = true.
Proof.
  intro H. apply hasAny_spec in H as (n & Hin & Hn).
  apply hasAny_spec. exists n. split; trivial.
  rewrite !toLowerCase_app. now apply includes_app.
Qed.

(** A needle written in any case that the raw answer contains is found by
    [hasAny] on the lower-cased answer. *)
Lemma hasAny_found (a w n : jsstring) (l : list jsstring) :
  includes a w = true -> includes (toLowerCase w) n = true -> In n l ->
  hasAny (toLowerCase a) l = true.
Proof.
  intros Ha Hw Hin. apply hasAny_spec. exists n. split; trivial.
  rewrite toLowerCase_idem.
  apply includes_trans with (n := toLowerCase w); trivial.
  now apply includes_toLowerCase.
Qed.

Lemma countHits_fold (t : jsstring) (groups : list (list jsstring)) (n : Z) :
  fold_left (fun n g => if hasAny t g then n + 1 else n) groups n =
  n + countHits t groups.
Proof.
  unfold countHits. revert n.
  induction groups as [|g groups IH]; intro n; cbn [fold_left].
  - lia.
  - rewrite IH, (IH (if hasAny t g then 0 + 1 else 0)).
    destruct (hasAny t g); lia.
Qed.

Lemma countHits_cons (t : jsstring) (g : list jsstring) (groups : list (list jsstring)) :
  countHits t (g :: groups) = (if hasAny t g then 1 else 0) + countHits t groups.
Proof.
  unfold countHits at 1. cbn [fold_left]. rewrite countHits_fold.
  destruct (hasAny t g); lia.
Qed.

Lemma countHits_nonneg (t : jsstring) (groups : list (list jsstring)) :
  0 <= countHits t groups.
Proof.
  induction groups as [|g groups IH]; [unfold countHits; cbn; lia|].
  rewrite countHits_cons. destruct (hasAny t g); lia.
Qed.

(** More detections in every group, more groups counted. *)
Lemma countHits_mono (t t' : jsstring) (gs gs' : list (list jsstring)) :
  Forall2 (fun g g' => hasAny t g = true -> hasAny t' g' = true) gs gs' ->
  countHits t gs <= countHits t' gs'.
Proof.
  induction 1 as [|g g' gs gs' Hg _ IH]; [reflexivity|].
  rewrite !countHits_cons.
  destruct (hasAny t g); [rewrite Hg by trivial | destruct (hasAny t' g')]; lia.
Qed.

Lemma Forall2_same {A : Type} (R : A -> A -> Prop) (l : list A) :
  (forall x, In x l -> R x x) -> Forall2 R l l.
Proof.
  induction l as [|x l IH]; intro H; constructor.
  - apply H. now left.
  - apply IH. intros y Hy. apply H. now right.
Qed.

(** ** The score and notes as a writer *)

Lemma marking_eq (s s' : Z) (n n' : list jsstring) :
  s = s' -> n = n' -> {| score := s; notes := n |} = {| score := s'; notes := n' |}.
Proof. now intros -> ->. Qed.

Lemma framed_ret {A : Type} (a : A) : framed (ret a).
Proof.
  intros [s n]. unfold ret, points. cbn. f_equal.
  apply marking_eq; [lia | now rewrite app_nil_r].
Qed.

Lemma framed_award (n : Z) : framed (award n).
Proof.
  intros [s l]. unfold award, points. cbn. f_equal.
  apply marking_eq; [lia | now rewrite app_nil_r].
Qed.

Lemma framed_note (x : jsstring) : framed (note x).
Proof.
  intros [s l]. unfold note, points. cbn. f_equal.
  apply marking_eq; [lia | reflexivity].
Qed.

Lemma bind_run {A B : Type} (m : M A) (k : A -> M B) :
  framed m -> (forall a, framed (k a)) ->
  framed (bind m k) /\
  points (bind m k) = points m + points (k (fst (m start))) /\
  fst (bind m k start) = fst (k (fst (m start)) start).
Proof.
  intros Hm Hk.
  assert (Hrun : forall st,
    bind m k st =
    (fst (k (fst (m start)) start),
     {| score := score st + (points m + points (k (fst (m start))));
        notes := notes st ++ notes (snd (m start))
                          ++ notes (snd (k (fst (m start)) start)) |})).
  { intro st. unfold bind. rewrite (Hm st). rewrite Hk. f_equal.
    cbn [score notes]. apply marking_eq; [lia | now rewrite app_assoc]. }
  assert (Hpts : points (bind m k) = points m + points (k (fst (m start)))).
  { unfold points at 1. rewrite Hrun. cbn. lia. }
  split; [|split; [exact Hpts|]].
  - intro st. rewrite Hrun. f_equal.
    + now rewrite Hrun.
    + rewrite Hpts. apply marking_eq; trivial.
      f_equal. now rewrite (Hrun start).
  - now rewrite Hrun.
Qed.

Lemma framed_bind {A B : Type} (m : M A) (k : A -> M B) :
  framed m -> (forall a, framed (k a)) -> framed (bind m k).
Proof. intros Hm Hk. now apply bind_run. Qed.

Lemma points_bind {A B : Type} (m : M A) (k : A -> M B) :
  framed m -> (forall a, framed (k a)) ->
  points (bind m k) = points m + points (k (fst (m start))).
Proof. intros Hm Hk. now apply bind_run. Qed.

Lemma fst_bind {A B : Type} (m : M A) (k : A -> M B) :
  framed m -> (forall a, framed (k a)) ->
  fst (bind m k start) = fst (k (fst (m start)) start).
Proof. intros Hm Hk. now apply bind_run. Qed.

Lemma framed_when (b : bool) (m : M unit) : framed m -> framed (when b m).
Proof. destruct b; simpl; trivial. intros _. apply framed_ret. Qed.

Create HintDb framed.
#[local] Hint Resolve framed_ret framed_award framed_note framed_bind framed_when : framed.

Ltac framed_cases :=
  repeat match goal with
         | |- framed (if ?c then _ else _) => destruct c
         end;
  auto 10 with framed.

Lemma markFailures_framed (t : jsstring) : framed (markFailures t).
Proof. unfold markFailures. framed_cases. Qed.

Lemma markImpact_framed (t : jsstring) : framed (markImpact t).
Proof. unfold markImpact. framed_cases. Qed.

Lemma markRecs_framed (t a : jsstring) : framed (markRecs t a).
Proof. unfold markRecs. framed_cases. Qed.

Lemma markLegal_framed (t : jsstring) : framed (markLegal t).
Proof. unfold markLegal. framed_cases. Qed.

Lemma markStructure_framed (t : jsstring) : framed (markStructure t).
Proof. unfold markStructure. framed_cases. Qed.

Lemma lengthNotes_framed (wc : Z) : framed (lengthNotes wc).
Proof. unfold lengthNotes. auto 10 with framed. Qed.

#[local] Hint Resolve markFailures_framed markImpact_framed markRecs_framed
  markLegal_framed markStructure_framed lengthNotes_framed : framed.

Lemma criteria_framed (a : jsstring) : framed (criteria a).
Proof. unfold criteria. auto 20 with framed. Qed.

Lemma framed_score {A : Type} (m : M A) (st : Marking) :
  framed m -> score (snd (m st)) = score st + points m.
Proof. intro H. now rewrite H. Qed.

Lemma framed_fst {A : Type} (m : M A) (st : Marking) :
  framed m -> fst (m st) = fst (m start).
Proof. intro H. now rewrite H. Qed.

(** ** The marks of each criterion *)

Ltac run_marks :=
  unfold points, bind, award, note, ret, get, when, clampScore, start;
  cbn [fst snd score notes].

Lemma markFailures_points (t : jsstring) :
  points (markFailures t) =
  if themesFound t >=? 2 then 3 else if themesFound t =? 1 then 1 else 0.
Proof.
  unfold markFailures.
  destruct (themesFound t >=? 2); [|destruct (themesFound t =? 1)]; reflexivity.
Qed.

Lemma markImpact_points (t : jsstring) :
  points (markImpact t) =
  if (mentionsIndividuals t && mentionsHarm t) && (mentionsTrust t || mentionsFairness t)
  then 3
  else if (mentionsIndividuals t && mentionsHarm t) || mentionsTrust t || mentionsFairness t
       then 2 else 1.
Proof.
  unfold markImpact.
  destruct (mentionsIndividuals t && mentionsHarm t && (mentionsTrust t || mentionsFairness t));
    [|destruct (mentionsIndividuals t && mentionsHarm t || mentionsTrust t || mentionsFairness t)];
    reflexivity.
Qed.

Lemma markRecs_points (t a : jsstring) :
  points (markRecs t a) =
  if (recHits t >=? 2) && (actionMarkers a >=? 2) then 2
  else if recHits t >=? 1 then 1 else 0.
Proof.
  unfold markRecs.
  destruct ((recHits t >=? 2) && (actionMarkers a >=? 2));
    [|destruct (recHits t >=? 1)]; reflexivity.
Qed.

Lemma markLegal_points (t : jsstring) :
  points (markLegal t) = if usesTerms t then 1 else 0.
Proof. unfold markLegal. destruct (usesTerms t); reflexivity. Qed.

Lemma markStructure_points (t : jsstring) :
  points (markStructure t) = if hasStructure t then 1 else 0.
Proof. unfold markStructure. destruct (hasStructure t); reflexivity. Qed.

Lemma rawScore_sum (a : jsstring) :
  rawScore a =
  points (markFailures (toLowerCase a)) + points (markImpact (toLowerCase a))
  + points (markRecs (toLowerCase a) a) + points (markLegal (toLowerCase a))
  + points (markStructure (toLowerCase a)).
Proof.
  unfold rawScore. fold (points (criteria a)). unfold criteria.
  repeat (rewrite points_bind by auto 20 with framed).
  unfold points at 6. cbn. lia.
Qed.

Lemma levels_steps (a : jsstring) :
  levels a =
  {| failuresLevel := fst (markFailures (toLowerCase a) start);
     impactLevel := fst (markImpact (toLowerCase a) start);
     recsLevel := fst (markRecs (toLowerCase a) a start);
     legalLevel := fst (markLegal (toLowerCase a) start);
     structureLevel := fst (markStructure (toLowerCase a) start) |}.
Proof.
  unfold levels, criteria.
  repeat (rewrite fst_bind by auto 20 with framed).
  reflexivity.
Qed.

Lemma rawScore_bounds (a : jsstring) : 1 <= rawScore a <= 10.
Proof.
  rewrite rawScore_sum, markFailures_points, markImpact_points,
    markRecs_points, markLegal_points, markStructure_points.
  repeat match goal with
         | |- context [if ?c then _ else _] => destruct c
         end; lia.
Qed.

(** The result of an answer that passes the gate, field by field. *)
Lemma markEthicsResponse_ungated (a : jsstring) :
  50 <= wordCount a ->
  markEthicsResponse a =
  {| Res.gated := false;
     Res.wordCount := wordCount a;
     Res.message := None;
     Res.score := Some (Z.max 0 (Z.min 10 (rawScore a)));
     Res.strengths :=
       Some (firstn 3 (mkStrengths (levels a) (usesTerms (toLowerCase a))
                         (hasStructure (toLowerCase a))));
     Res.tags := Some (mkTags (toLowerCase a) (levels a));
     Res.grid := Some (mkGrid (levels a) (usesTerms (toLowerCase a)));
     Res.framework := Some FRAMEWORK;
     Res.feedback :=
       Some (mkFeedback (notes (snd (lengthNotes (wordCount a)
                                       (snd (criteria a start))))));
     Res.modelAnswer := Some MODEL_ANSWER |}.
Proof.
  intro Hwc. unfold markEthicsResponse.
  assert (Hgate : (wordCount a <? 50) = false) by (apply Z.ltb_ge; exact Hwc).
  rewrite Hgate. unfold levels, rawScore, bind at 1.
  destruct (criteria a start) as [lv st1].
  unfold bind at 1. cbn [fst snd].
  pose proof (framed_score (lengthNotes (wordCount a)) st1
                (lengthNotes_framed _)) as Hlen.
  destruct (lengthNotes (wordCount a) st1) as [u st2].
  assert (Hpts : points (lengthNotes (wordCount a)) = 0).
  { unfold lengthNotes, when.
    destruct (wordCount a <? 100), (wordCount a >? 250); reflexivity. }
  cbn [snd] in Hlen. rewrite Hpts, Z.add_0_r in Hlen.
  run_marks. now rewrite Hlen.
Qed.

Lemma markEthicsResponse_gated (a : jsstring) :
  wordCount a < 50 ->
  markEthicsResponse a =
  {| Res.gated := true;
     Res.wordCount := wordCount a;
     Res.message := Some GATE_MESSAGE;
     Res.score := None;
     Res.feedback := None;
     Res.strengths := None;
     Res.tags := None;
     Res.grid := None;
     Res.framework := None;
     Res.modelAnswer := None |}.
Proof.
  intro Hwc. unfold markEthicsResponse.
  assert (Hgate : (wordCount a <? 50) = true) by (apply Z.ltb_lt; exact Hwc).
  now rewrite Hgate.
Qed.

(** ** The copy in [server.js] *)

Lemma server_markFailures_framed (t : jsstring) : framed (Server.markFailures t).
Proof. unfold Server.markFailures. framed_cases. Qed.

Lemma server_markImpact_framed (t : jsstring) : framed (Server.markImpact t).
Proof. unfold Server.markImpact. cbv zeta. framed_cases. Qed.

Lemma server_markRecs_framed (t a : jsstring) : framed (Server.markRecs t a).
Proof. unfold Server.markRecs. framed_cases. Qed.

Lemma server_markLegal_framed (t : jsstring) : framed (Server.markLegal t).
Proof. unfold Server.markLegal. cbv zeta. framed_cases. Qed.

Lemma server_markStructure_framed (t : jsstring) : framed (Server.markStructure t).
Proof. unfold Server.markStructure. cbv zeta. framed_cases. Qed.

#[local] Hint Resolve server_markFailures_framed server_markImpact_framed
  server_markRecs_framed server_markLegal_framed server_markStructure_framed : framed.

Lemma server_criteria_framed (a : jsstring) : framed (Server.criteria a).
Proof. unfold Server.criteria. auto 20 with framed. Qed.

Lemma server_markFailures_points (t : jsstring) :
  points (Server.markFailures t) =
  if Server.themesFound t >=? 2 then 3 else if Server.themesFound t =? 1 then 1 else 0.
Proof.
  unfold Server.markFailures.
  destruct (Server.themesFound t >=? 2); [|destruct (Server.themesFound t =? 1)];
    reflexivity.
Qed.

Lemma server_markImpact_points (t : jsstring) :
  points (Server.markImpact t) =
  if (mentionsIndividuals t && mentionsHarm t) &&
     (mentionsTrust t || hasAny t [js "fairness"; js "discrimin"; js "unfair"])
  then 3
  else if (mentionsIndividuals t && mentionsHarm t) || mentionsTrust t then 2 else 1.
Proof.
  unfold Server.markImpact, mentionsIndividuals, mentionsHarm, mentionsTrust.
  cbv zeta.
  repeat match goal with
         | |- context [if ?c then _ else _] => destruct c
         end; reflexivity.
Qed.

Lemma server_markRecs_points (t a : jsstring) :
  points (Server.markRecs t a) = points (markRecs t a).
Proof.
  unfold Server.markRecs, markRecs, Server.recHits, recHits.
  change Server.recThemes with REC_THEMES.
  repeat match goal with
         | |- context [if ?c then _ else _] => destruct c
         end; reflexivity.
Qed.

Lemma server_markLegal_points (t : jsstring) :
  points (Server.markLegal t) = points (markLegal t).
Proof.
  unfold Server.markLegal, markLegal, usesTerms. cbv zeta.
  repeat match goal with
         | |- context [if ?c then _ else _] => destruct c
         end; reflexivity.
Qed.

Lemma server_markStructure_points (t : jsstring) :
  points (Server.markStructure t) = points (markStructure t).
Proof.
  unfold Server.markStructure, markStructure, hasStructure. cbv zeta.
  repeat match goal with
         | |- context [if ?c then _ else _] => destruct c
         end; reflexivity.
Qed.

Lemma server_rawScore_sum (a : jsstring) :
  Server.rawScore a =
  points (Server.markFailures (toLowerCase a)) + points (Server.markImpact (toLowerCase a))
  + points (markRecs (toLowerCase a) a) + points (markLegal (toLowerCase a))
  + points (markStructure (toLowerCase a)).
Proof.
  unfold Server.rawScore. fold (points (Server.criteria a)). unfold Server.criteria.
  repeat (rewrite points_bind by auto 20 with framed).
  rewrite server_markRecs_points, server_markLegal_points,
    server_markStructure_points. lia.
Qed.

Lemma server_rawScore_bounds (a : jsstring) : 1 <= Server.rawScore a <= 10.
Proof.
  rewrite server_rawScore_sum, server_markFailures_points, server_markImpact_points,
    markRecs_points, markLegal_points, markStructure_points.
  repeat match goal with
         | |- context [if ?c then _ else _] => destruct c
         end; lia.
Qed.

Lemma server_ungated (a : jsstring) :
  50 <= wordCount a ->
  Server.markEthicsResponse a =
  {| Server.Res.gated := false;
     Server.Res.wordCount := wordCount a;
     Server.Res.message := None;
     Server.Res.score := Some (Z.max 0 (Z.min 10 (Server.rawScore a)));
     Server.Res.bands := None;
     Server.Res.feedback :=
       Some (mkFeedback (notes (snd (lengthNotes (wordCount a)
                                       (snd (Server.criteria a start))))));
     Server.Res.modelAnswer := Some MODEL_ANSWER |}.
Proof.
  intro Hwc. unfold Server.markEthicsResponse.
  assert (Hgate : (wordCount a <? 50) = false) by (apply Z.ltb_ge; exact Hwc).
  rewrite Hgate. unfold Server.rawScore, bind at 1.
  destruct (Server.criteria a start) as [lv st1].
  unfold bind at 1. cbn [fst snd].
  pose proof (framed_score (lengthNotes (wordCount a)) st1
                (lengthNotes_framed _)) as Hlen.
  destruct (lengthNotes (wordCount a) st1) as [u st2].
  assert (Hpts : points (lengthNotes (wordCount a)) = 0).
  { unfold lengthNotes, when.
    destruct (wordCount a <? 100), (wordCount a >? 250); reflexivity. }
  cbn [snd] in Hlen. rewrite Hpts, Z.add_0_r in Hlen.
  run_marks. now rewrite Hlen.
Qed.

Lemma server_gated (a : jsstring) :
  wordCount a < 50 ->
  Server.markEthicsResponse a =
  {| Server.Res.gated := true;
     Server.Res.wordCount := wordCount a;
     Server.Res.message := Some GATE_MESSAGE;
     Server.Res.score := None;
     Server.Res.bands := None;
     Server.Res.feedback := None;
     Server.Res.modelAnswer := None |}.
Proof.
  intro Hwc. unfold Server.markEthicsResponse.
  assert (Hgate : (wordCount a <? 50) = true) by (apply Z.ltb_lt; exact Hwc).
  now rewrite Hgate.
Qed.

(** ** The gate *)

(** C1. An answer of fewer than 50 words gets the gated result: [gated] is
    true, [wordCount] is set, the message contains "Please add to your
    answer.", and score, feedback, strengths, tags, grid, framework and
    modelAnswer are all null. The copy in [server.js] gates the same way. *)
Theorem gated_below_50 (answerText : jsstring) :
  wordCount answerText < 50 ->
  Res.gated (markEthicsResponse answerText) = true /\
  Res.wordCount (markEthicsResponse answerText) = wordCount answerText /\
  (exists m, Res.message (markEthicsResponse answerText) = Some m /\
             includes m (js "Please add to your answer.") = true) /\
  Res.score (markEthicsResponse answerText) = None /\
  Res.feedback (markEthicsResponse answerText) = None /\
  Res.strengths (markEthicsResponse answerText) = None /\
  Res.tags (markEthicsResponse answerText) = None /\
  Res.grid (markEthicsResponse answerText) = None /\
  Res.framework (markEthicsResponse answerText) = None /\
  Res.modelAnswer (markEthicsResponse answerText) = None /\
  Server.markEthicsResponse answerText =
  {| Server.Res.gated := true;
     Server.Res.wordCount := wordCount answerText;
     Server.Res.message := Some GATE_MESSAGE;
     Server.Res.score := None;
     Server.Res.bands := None;
     Server.Res.feedback := None;
     Server.Res.modelAnswer := None |}.
Proof.
  intro Hwc. rewrite (markEthicsResponse_gated _ Hwc). cbn.
  repeat split.
  - exists GATE_MESSAGE. split; reflexivity.
  - now apply server_gated.
Qed.

Lemma gated_below_50_witness :
  wordCount (js "The council got it wrong.") < 50 /\
  Res.gated (markEthicsResponse (js "The council got it wrong.")) = true /\
  Res.wordCount (markEthicsResponse (js "The council got it wrong.")) = 5 /\
  Res.modelAnswer (markEthicsResponse (js "The council got it wrong.")) = None.
Proof.
  assert (Hwc : wordCount (js "The council got it wrong.") < 50) by reflexivity.
  destruct (gated_below_50 (js "The council got it wrong.") Hwc)
    as (Hg & Hw & _ & _ & _ & _ & _ & _ & _ & Hm & _).
  split; [exact Hwc | split; [exact Hg | split; [exact Hw | exact Hm]]].
Defined.



(** ** The impact criterion *)




(** ** The clamp *)

(** C6. On an answer that passes the gate the five awards already sum to a
    number between 1 and 10, so the clamp [Math.max(0, Math.min(10, score))]
    changes nothing and the score returned is the sum; in both copies. *)
Theorem clamp_is_identity (answerText : jsstring) :
  50 <= wordCount answerText ->
  1 <= rawScore answerText <= 10 /\
  Z.max 0 (Z.min 10 (rawScore answerText)) = rawScore answerText /\
  Res.score (markEthicsResponse answerText) = Some (rawScore answerText) /\
  1 <= Server.rawScore answerText <= 10 /\
  Z.max 0 (Z.min 10 (Server.rawScore answerText)) = Server.rawScore answerText /\
  Server.Res.score (Server.markEthicsResponse answerText) =
  Some (Server.rawScore answerText).
Proof.
  intro Hwc.
  pose proof (rawScore_bounds answerText) as Hb.
  pose proof (server_rawScore_bounds answerText) as Hs.
  rewrite (markEthicsResponse_ungated _ Hwc), (server_ungated _ Hwc).
  cbn [Res.score Server.Res.score].
  assert (Hc : Z.max 0 (Z.min 10 (rawScore answerText)) = rawScore answerText) by lia.
  assert (Hc' : Z.max 0 (Z.min 10 (Server.rawScore answerText))
                = Server.rawScore answerText) by lia.
  rewrite Hc, Hc'. tauto.
Qed.

Lemma clamp_is_identity_witness :
  50 <= wordCount answer_full /\
  Res.score (markEthicsResponse answer_full) = Some (rawScore answer_full) /\
  rawScore answer_full = 10.
Proof.
  assert (Hwc : 50 <= wordCount answer_full) by (vm_compute; discriminate).
  destruct (clamp_is_identity answer_full Hwc) as (_ & _ & Hs & _).
  split; [exact Hwc | split; [exact Hs | vm_compute; reflexivity]].
Defined.

(** ** Levels and marks *)

Ltac split_ifs :=
  repeat match goal with
         | |- context [if ?c then _ else _] => destruct c
         end.

Lemma markFailures_level (t : jsstring) :
  fst (markFailures t start) =
  if themesFound t >=? 2 then 2 else if themesFound t =? 1 then 1 else 0.
Proof. unfold markFailures. split_ifs; reflexivity. Qed.

Lemma markImpact_level (t : jsstring) :
  fst (markImpact t start) = points (markImpact t) - 1.
Proof. unfold markImpact. split_ifs; reflexivity. Qed.

Lemma markRecs_level (t a : jsstring) :
  fst (markRecs t a start) = points (markRecs t a).
Proof. unfold markRecs. split_ifs; reflexivity. Qed.

Lemma markLegal_level (t : jsstring) :
  fst (markLegal t start) = if usesTerms t then 2 else 0.
Proof. unfold markLegal. split_ifs; reflexivity. Qed.

Lemma markStructure_level (t : jsstring) :
  fst (markStructure t start) = if hasStructure t then 2 else 1.
Proof. unfold markStructure. split_ifs; reflexivity. Qed.

Lemma themesFound_longer (a s : jsstring) :
  themesFound (toLowerCase s) <= themesFound (toLowerCase (a ++ s)).
Proof.
  unfold themesFound. apply countHits_mono, Forall2_same.
  intros g _ Hg. rewrite toLowerCase_app.
  rewrite <- (app_nil_r (toLowerCase s)). now apply hasAny_longer.
Qed.

(** ** Two new failure themes *)

(** C8. When an answer matches none of the six failure themes and a
    sentence that triggers exactly two of them is appended, the marks of
    the failures criterion go from 0 to 3; with the combined text past the
    gate and the levels of the other four criteria unchanged, the sum of
    the awards, and the score returned, go up by 3. *)
Theorem two_new_failure_themes (answerText sentence : jsstring) :
  themesFound (toLowerCase answerText) = 0 ->
  themesFound (toLowerCase sentence) = 2 ->
  50 <= wordCount (answerText ++ sentence) ->
  impactLevel (levels (answerText ++ sentence)) = impactLevel (levels answerText) ->
  recsLevel (levels (answerText ++ sentence)) = recsLevel (levels answerText) ->
  legalLevel (levels (answerText ++ sentence)) = legalLevel (levels answerText) ->
  structureLevel (levels (answerText ++ sentence)) = structureLevel (levels answerText) ->
  points (markFailures (toLowerCase answerText)) = 0 /\
  points (markFailures (toLowerCase (answerText ++ sentence))) = 3 /\
  rawScore (answerText ++ sentence) = rawScore answerText + 3 /\
  (50 <= wordCount answerText ->
   exists x, Res.score (markEthicsResponse answerText) = Some x /\
             Res.score (markEthicsResponse (answerText ++ sentence)) = Some (x + 3)).
Proof.
  intros H0 H2 Hwc Hi Hr Hl Hs.
  assert (P0 : points (markFailures (toLowerCase answerText)) = 0).
  { rewrite markFailures_points, H0. reflexivity. }
  assert (P3 : points (markFailures (toLowerCase (answerText ++ sentence))) = 3).
  { rewrite markFailures_points.
    pose proof (themesFound_longer answerText sentence) as Hmono.
    rewrite H2 in Hmono.
    destruct (themesFound (toLowerCase (answerText ++ sentence)) >=? 2) eqn:E; trivial.
    rewrite Z.geb_leb in E. apply Z.leb_gt in E. lia. }
  assert (Hsum : rawScore (answerText ++ sentence) = rawScore answerText + 3).
  { rewrite !levels_steps in Hi, Hr, Hl, Hs.
    cbn [impactLevel recsLevel legalLevel structureLevel] in Hi, Hr, Hl, Hs.
    rewrite !markImpact_level in Hi. rewrite !markRecs_level in Hr.
    rewrite !markLegal_level in Hl. rewrite !markStructure_level in Hs.
    rewrite !rawScore_sum, P0, P3, !markLegal_points, !markStructure_points.
    destruct (usesTerms (toLowerCase (answerText ++ sentence))),
             (usesTerms (toLowerCase answerText)),
             (hasStructure (toLowerCase (answerText ++ sentence))),
             (hasStructure (toLowerCase answerText)); lia. }
  repeat split; trivial.
  intro Hwa. exists (rawScore answerText).
  rewrite (markEthicsResponse_ungated _ Hwa), (markEthicsResponse_ungated _ Hwc).
  cbn [Res.score]. rewrite Hsum.
  pose proof (rawScore_bounds answerText).
  pose proof (rawScore_bounds (answerText ++ sentence)).
  split; f_equal; lia.
Qed.

Lemma two_new_failure_themes_witness :
  themesFound (toLowerCase answer_plain) = 0 /\
  themesFound (toLowerCase sentence_two_themes) = 2 /\
  points (markFailures (toLowerCase (answer_plain ++ sentence_two_themes))) = 3 /\
  rawScore (answer_plain ++ sentence_two_themes) = rawScore answer_plain + 3.
Proof.
  assert (H0 : themesFound (toLowerCase answer_plain) = 0) by (vm_compute; reflexivity).
  assert (H2 : themesFound (toLowerCase sentence_two_themes) = 2) by (vm_compute; reflexivity).
  destruct (two_new_failure_themes answer_plain sentence_two_themes H0 H2)
    as (_ & P3 & Hsum & _); try (vm_compute; reflexivity).
  - vm_compute; discriminate.
  - auto.
Defined.

(** ** Structure *)

(** C9. An answer that passes the gate and holds none of the structure
    markers gets 0 marks for structure, yet its structure level is 1
    (Developing): the "Structure & clarity" tag is "mid" and the structure
    row of the grid is the Developing marker. *)
Theorem structure_absent (answerText : jsstring) :
  50 <= wordCount answerText ->
  (forall m, In m [js "failure 1"; js "failure 2"; js "1)"; js "2)"; js "3)";
                   js "key ethical"; js "why these failures"; js "what should have"] ->
             includes (toLowerCase answerText) m = false) ->
  points (markStructure (toLowerCase answerText)) = 0 /\
  structureLevel (levels answerText) = 1 /\
  (exists tags, Res.tags (markEthicsResponse answerText) = Some tags /\
     nth_error tags 4 = Some {| name := js "Structure & clarity"; status := js "mid" |}) /\
  (exists g, Res.grid (markEthicsResponse answerText) = Some g /\
     structure g = js "◐ Developing") /\
  (forall st, notes (snd (markStructure (toLowerCase answerText) st)) =
     notes st ++ [js "Structure: Use the template headings so your evaluation is easy to follow."]).
Proof.
  intros Hwc Hnone.
  assert (Hs : hasStructure (toLowerCase answerText) = false).
  { unfold hasStructure.
    rewrite !hasAny_none; trivial;
      intros n Hn; rewrite toLowerCase_idem; apply Hnone;
      cbn [In] in *; tauto. }
  assert (Hlv : structureLevel (levels answerText) = 1).
  { rewrite levels_steps. cbn [structureLevel].
    now rewrite markStructure_level, Hs. }
  split; [|split; [exact Hlv|split; [|split]]].
  - now rewrite markStructure_points, Hs.
  - rewrite (markEthicsResponse_ungated _ Hwc). cbn [Res.tags].
    eexists. split; [reflexivity|].
    unfold mkTags. cbn [nth_error]. now rewrite Hlv.
  - rewrite (markEthicsResponse_ungated _ Hwc). cbn [Res.grid].
    eexists. split; [reflexivity|].
    unfold mkGrid. cbn [structure]. now rewrite Hlv.
  - intro st. unfold markStructure. now rewrite Hs.
Qed.

Lemma structure_absent_witness :
  50 <= wordCount answer_plain /\
  points (markStructure (toLowerCase answer_plain)) = 0 /\
  structureLevel (levels answer_plain) = 1.
Proof.
  assert (Hwc : 50 <= wordCount answer_plain) by (vm_compute; discriminate).
  destruct (structure_absent answer_plain Hwc) as (Hp & Hl & _).
  - intros m Hm. cbn [In] in Hm.
    repeat (destruct Hm as [<- | Hm]; [vm_compute; reflexivity|]).
    destruct Hm.
  - auto.
Defined.

(** ** Legal awareness *)

(** C10. On an answer that passes the gate the "Legal awareness" tag is
    never "mid" and the legal row of the grid is never the Developing
    marker: the substrings the middle branch of the tag looks for are all
    terminology terms, and the middle branch of the grid asks for
    [usesTerms] where it is already false. The tag is "ok" and the row
    Secure when a term is used, "bad" and Missing otherwise. *)
Theorem legal_never_developing (answerText : jsstring) :
  50 <= wordCount answerText ->
  (hasAny (toLowerCase answerText) [js "consent"; js "privacy"; js "data protection"] = true ->
   usesTerms (toLowerCase answerText) = true) /\
  exists tags g,
    Res.tags (markEthicsResponse answerText) = Some tags /\
    Res.grid (markEthicsResponse answerText) = Some g /\
    (forall tg, In tg tags -> name tg = js "Legal awareness" -> status tg <> js "mid") /\
    legal g <> js "◐ Developing" /\
    nth_error tags 1 =
      Some {| name := js "Legal awareness";
              status := if usesTerms (toLowerCase answerText) then js "ok" else js "bad" |} /\
    legal g = if usesTerms (toLowerCase answerText) then js "✓ Secure" else js "✗ Missing".
Proof.
  intro Hwc.
  assert (Hsub : hasAny (toLowerCase answerText)
                   [js "consent"; js "privacy"; js "data protection"] = true ->
                 usesTerms (toLowerCase answerText) = true).
  { apply hasAny_incl. intros n Hn. cbn [In] in *. tauto. }
  split; [exact Hsub|].
  rewrite (markEthicsResponse_ungated _ Hwc). cbn [Res.tags Res.grid].
  do 2 eexists. split; [reflexivity | split; [reflexivity|]].
  assert (Hlv : legalLevel (levels answerText)
                = if usesTerms (toLowerCase answerText) then 2 else 0).
  { rewrite levels_steps. cbn [legalLevel]. apply markLegal_level. }
  assert (Htag : tagStatus (if legalLevel (levels answerText) >=? 2 then 2
                            else if hasAny (toLowerCase answerText)
                                      [js "consent"; js "privacy"; js "data protection"]
                                 then 1 else 0)
                 = if usesTerms (toLowerCase answerText) then js "ok" else js "bad").
  { rewrite Hlv. destruct (usesTerms (toLowerCase answerText)); [reflexivity|].
    destruct (hasAny (toLowerCase answerText) _); [now discriminate Hsub | reflexivity]. }
  assert (Hgrid : statusFromLevel (if legalLevel (levels answerText) >=? 2 then 2
                                   else if usesTerms (toLowerCase answerText) then 1 else 0)
                  = if usesTerms (toLowerCase answerText)
                    then js "✓ Secure" else js "✗ Missing").
  { rewrite Hlv. destruct (usesTerms (toLowerCase answerText)); reflexivity. }
  unfold mkTags, mkGrid. cbn [legal nth_error]. rewrite Htag, Hgrid.
  repeat split.
  - intros tg Hin Hname. cbn [In] in Hin.
    destruct Hin as [<- | [<- | [<- | [<- | [<- | []]]]]]; cbn [name status] in *;
      try (vm_compute in Hname; discriminate Hname).
    destruct (usesTerms (toLowerCase answerText)); intro E;
      vm_compute in E; discriminate E.
  - destruct (usesTerms (toLowerCase answerText)); intro E;
      vm_compute in E; discriminate E.
Qed.

Lemma legal_never_developing_witness :
  50 <= wordCount answer_full /\
  exists tags g,
    Res.tags (markEthicsResponse answer_full) = Some tags /\
    Res.grid (markEthicsResponse answer_full) = Some g /\
    legal g <> js "◐ Developing".
Proof.
  assert (Hwc : 50 <= wordCount answer_full) by (vm_compute; discriminate).
  destruct (legal_never_developing answer_full Hwc)
    as (_ & tags & g & Ht & Hg & _ & Hl & _).
  split; [exact Hwc|]. exists tags, g.
  split; [exact Ht | split; [exact Hg | exact Hl]].
Defined.

(** ** The two copies *)

Lemma server_themesFound_le (t : jsstring) :
  Server.themesFound t <= themesFound t.
Proof.
  unfold Server.themesFound, themesFound, Server.failureThemes, FAILURE_THEMES.
  cbn [map hits]. apply countHits_mono.
  repeat constructor; trivial.
  apply hasAny_incl. intros n Hn. cbn [In] in *. tauto.
Qed.

Lemma server_themesFound_eq (t : jsstring) :
  includes (toLowerCase t) (js "encryption") = false ->
  Server.themesFound t = themesFound t.
Proof.
  intro Henc.
  unfold Server.themesFound, themesFound, Server.failureThemes, FAILURE_THEMES.
  cbn [map hits]. rewrite !countHits_cons.
  assert (Hsec : hasAny t [js "secure"; js "security"; js "stored"; js "storage";
                           js "breach"; js "access control"; js "encryption"]
                 = hasAny t [js "secure"; js "security"; js "stored"; js "storage";
                             js "breach"; js "access control"]).
  { unfold hasAny. cbn [existsb]. now rewrite Henc. }
  now rewrite Hsec.
Qed.

Lemma server_fairness_weaker (t : jsstring) :
  hasAny t [js "fairness"; js "discrimin"; js "unfair"] = true ->
  mentionsFairness t = true.
Proof. apply hasAny_incl. intros n Hn. cbn [In] in *. tauto. Qed.

Lemma failure_marks_mono (n m : Z) :
  n <= m ->
  (if n >=? 2 then 3 else if n =? 1 then 1 else 0)
  <= (if m >=? 2 then 3 else if m =? 1 then 1 else 0).
Proof.
  intro H. rewrite !Z.geb_leb.
  destruct (Z.leb_spec 2 n), (Z.leb_spec 2 m), (Z.eqb_spec n 1), (Z.eqb_spec m 1);
    lia.
Qed.

Lemma server_impact_le (t : jsstring) :
  points (Server.markImpact t) <= points (markImpact t).
Proof.
  rewrite server_markImpact_points, markImpact_points.
  pose proof (server_fairness_weaker t) as HF.
  destruct (mentionsIndividuals t), (mentionsHarm t), (mentionsTrust t),
    (hasAny t [js "fairness"; js "discrimin"; js "unfair"]),
    (mentionsFairness t); cbn [andb orb];
    try discriminate (HF eq_refl); lia.
Qed.

Lemma server_impact_eq (t : jsstring) :
  mentionsFairness t = false ->
  points (Server.markImpact t) = points (markImpact t).
Proof.
  intro Hf.
  rewrite server_markImpact_points, markImpact_points, Hf.
  pose proof (server_fairness_weaker t) as HF. rewrite Hf in HF.
  destruct (mentionsIndividuals t), (mentionsHarm t), (mentionsTrust t),
    (hasAny t [js "fairness"; js "discrimin"; js "unfair"]); cbn [andb orb];
    try discriminate (HF eq_refl); reflexivity.
Qed.

Lemma server_rawScore_le (a : jsstring) : Server.rawScore a <= rawScore a.
Proof.
  rewrite server_rawScore_sum, rawScore_sum.
  pose proof (server_impact_le (toLowerCase a)).
  pose proof (failure_marks_mono _ _ (server_themesFound_le (toLowerCase a))).
  rewrite server_markFailures_points, markFailures_points. lia.
Qed.

(** C5, as the code has it. The two copies of the marker return the same
    [gated] flag and the same [wordCount] for every answer, and a null
    score for every gated one. Past the gate the score of the copy in
    [server.js] is at most the score of the full marker; the two are equal
    when the lower-cased answer holds neither "encryption" nor one of the
    fairness terms. *)
Theorem copies_compared (answerText : jsstring) :
  Res.gated (markEthicsResponse answerText)
  = Server.Res.gated (Server.markEthicsResponse answerText) /\
  Res.wordCount (markEthicsResponse answerText)
  = Server.Res.wordCount (Server.markEthicsResponse answerText) /\
  (wordCount answerText < 50 ->
   Res.score (markEthicsResponse answerText) = None /\
   Server.Res.score (Server.markEthicsResponse answerText) = None) /\
  (50 <= wordCount answerText ->
   exists x y,
     Res.score (markEthicsResponse answerText) = Some x /\
     Server.Res.score (Server.markEthicsResponse answerText) = Some y /\
     y <= x /\
     (includes (toLowerCase answerText) (js "encryption") = false ->
      mentionsFairness (toLowerCase answerText) = false -> y = x)).
Proof.
  destruct (Z.lt_ge_cases (wordCount answerText) 50) as [Hlt | Hge].
  - rewrite (markEthicsResponse_gated _ Hlt), (server_gated _ Hlt).
    cbn. repeat split; trivial. lia.
  - rewrite (markEthicsResponse_ungated _ Hge), (server_ungated _ Hge).
    cbn [Res.gated Res.wordCount Res.score
         Server.Res.gated Server.Res.wordCount Server.Res.score].
    split; [reflexivity | split; [reflexivity | split; [lia|]]].
    intros _. do 2 eexists. split; [reflexivity | split; [reflexivity|]].
    pose proof (rawScore_bounds answerText).
    pose proof (server_rawScore_bounds answerText).
    pose proof (server_rawScore_le answerText).
    split; [lia|].
    intros Henc Hfair.
    assert (Heq : Server.rawScore answerText = rawScore answerText).
    { rewrite server_rawScore_sum, rawScore_sum.
      rewrite server_markFailures_points, markFailures_points.
      rewrite server_themesFound_eq
        by (rewrite toLowerCase_idem; exact Henc).
      now rewrite server_impact_eq. }
    now rewrite Heq.
Qed.

Lemma copies_compared_witness :
  Res.gated (markEthicsResponse answer_plain)
  = Server.Res.gated (Server.markEthicsResponse answer_plain) /\
  exists x y,
    Res.score (markEthicsResponse answer_plain) = Some x /\
    Server.Res.score (Server.markEthicsResponse answer_plain) = Some y /\
    y = x.
Proof.
  destruct (copies_compared answer_plain) as (Hg & _ & _ & Hs).
  split; [exact Hg|].
  destruct Hs as (x & y & Hx & Hy & _ & Heq); [vm_compute; discriminate|].
  exists x, y. split; [exact Hx | split; [exact Hy|]].
  apply Heq; vm_compute; reflexivity.
Defined.

(** C5 as stated fails: fifty-two words whose only rubric keyword is
    "fairness" score 4 in the full marker and 3 in the copy in [server.js],
    whose two-mark impact branch does not look at fairness. *)
Lemma copies_same_score_counterexample :
  wordCount answer_fairness = 52 /\
  Res.score (markEthicsResponse answer_fairness) = Some 4 /\
  Server.Res.score (Server.markEthicsResponse answer_fairness) = Some 3 /\
  Res.score (markEthicsResponse answer_fairness)
  <> Server.Res.score (Server.markEthicsResponse answer_fairness).
Proof.
  repeat split; try (vm_compute; reflexivity).
  vm_compute. discriminate.
Qed.

(** ** The full-marks scenario *)

Lemma geb_true (n m : Z) : m <= n -> (n >=? m) = true.
Proof. intro H. rewrite Z.geb_leb. now apply Z.leb_le. Qed.

Ltac found_side := first [ cbn [In]; tauto | vm_compute; reflexivity ].

(** C4, as the code has it. A 60-word answer that contains "consent",
    "transparency", "bias", "fairness", "trust", "residents", "DPIA",
    "action", "should", "1)", "2)" and "3)", that also holds one of the
    harm terms and in which "action", "should" and the other action markers
    stand as whole words at least twice, is not gated, scores 10, has three
    strengths, has all five tags "ok" and gets the fixed model answer. *)
Theorem full_marks_scenario (answerText : jsstring) :
  wordCount answerText = 60 ->
  (forall w, In w [js "consent"; js "transparency"; js "bias"; js "fairness";
                   js "trust"; js "residents"; js "DPIA"; js "action"; js "should";
                   js "1)"; js "2)"; js "3)"] ->
             includes answerText w = true) ->
  mentionsHarm (toLowerCase answerText) = true ->
  2 <= actionMarkers answerText ->
  Res.gated (markEthicsResponse answerText) = false /\
  Res.score (markEthicsResponse answerText) = Some 10 /\
  (exists l, Res.strengths (markEthicsResponse answerText) = Some l /\ length l = 3%nat) /\
  (exists tags, Res.tags (markEthicsResponse answerText) = Some tags /\
     map status tags = [js "ok"; js "ok"; js "ok"; js "ok"; js "ok"]) /\
  Res.modelAnswer (markEthicsResponse answerText) = Some MODEL_ANSWER.
Proof.
  intros Hwc Hall Hharm Hact.
  assert (Hgate : 50 <= wordCount answerText) by lia.
  set (t := toLowerCase answerText) in *.
  assert (Hfound : forall w n l,
            In w [js "consent"; js "transparency"; js "bias"; js "fairness";
                  js "trust"; js "residents"; js "DPIA"; js "action"; js "should";
                  js "1)"; js "2)"; js "3)"] ->
            includes (toLowerCase w) n = true -> In n l -> hasAny t l = true).
  { intros w n l Hw Hn Hl. apply (hasAny_found answerText w n l); auto. }
  (* failures *)
  assert (Hthemes : 2 <= themesFound t).
  { unfold themesFound, FAILURE_THEMES. cbn [map hits]. rewrite !countHits_cons.
    pose proof (countHits_nonneg t []).
    repeat match goal with
           | |- context [hasAny t ?l] =>
             first [ rewrite (Hfound (js "consent") (js "consent") l) by found_side
                   | rewrite (Hfound (js "bias") (js "bias") l) by found_side
                   | destruct (hasAny t l) ]
           end; lia. }
  (* impact *)
  assert (Hind : mentionsIndividuals t = true).
  { apply (Hfound (js "residents") (js "resident"));
      found_side. }
  assert (Htrust : mentionsTrust t = true).
  { apply (Hfound (js "trust") (js "trust"));
      found_side. }
  (* recommendations *)
  assert (Hrecs : 2 <= recHits t).
  { unfold recHits, REC_THEMES. rewrite !countHits_cons.
    pose proof (countHits_nonneg t []).
    repeat match goal with
           | |- context [hasAny t ?l] =>
             first [ rewrite (Hfound (js "DPIA") (js "dpia") l) by found_side
                   | rewrite (Hfound (js "consent") (js "consent") l) by found_side
                   | destruct (hasAny t l) ]
           end; lia. }
  (* terminology and structure *)
  assert (Hterms : usesTerms t = true).
  { apply (Hfound (js "consent") (js "consent"));
      found_side. }
  assert (Hstruct : hasStructure t = true).
  { unfold hasStructure.
    rewrite (Hfound (js "1)") (js "1)") [js "1)"; js "2)"; js "3)"])
      by found_side.
    now rewrite orb_true_r. }
  assert (Hlv : levels answerText =
                {| failuresLevel := 2; impactLevel := 2; recsLevel := 2;
                   legalLevel := 2; structureLevel := 2 |}).
  { rewrite levels_steps. fold t.
    rewrite markFailures_level, markImpact_level, markRecs_level, markLegal_level,
      markStructure_level, markImpact_points, markRecs_points.
    rewrite Hind, Hharm, Htrust, Hterms, Hstruct.
    now rewrite !geb_true by lia. }
  assert (Hraw : rawScore answerText = 10).
  { rewrite rawScore_sum. fold t.
    rewrite markFailures_points, markImpact_points, markRecs_points,
      markLegal_points, markStructure_points.
    rewrite Hind, Hharm, Htrust, Hterms, Hstruct.
    now rewrite !geb_true by lia. }
  rewrite (markEthicsResponse_ungated _ Hgate). fold t.
  cbn [Res.gated Res.score Res.strengths Res.tags Res.modelAnswer].
  rewrite Hraw, Hlv, Hterms, Hstruct.
  split; [reflexivity | split; [reflexivity | split; [|split; [|reflexivity]]]].
  - eexists. split; reflexivity.
  - eexists. split; reflexivity.
Qed.

Lemma full_marks_scenario_witness :
  wordCount answer_full = 60 /\
  Res.score (markEthicsResponse answer_full) = Some 10 /\
  Res.modelAnswer (markEthicsResponse answer_full) = Some MODEL_ANSWER.
Proof.
  assert (Hwc : wordCount answer_full = 60) by (vm_compute; reflexivity).
  destruct (full_marks_scenario answer_full Hwc) as (_ & Hs & _ & _ & Hm).
  - intros w Hw. cbn [In] in Hw.
    repeat (destruct Hw as [<- | Hw]; [vm_compute; reflexivity|]).
    destruct Hw.
  - vm_compute; reflexivity.
  - vm_compute; discriminate.
  - split; [exact Hwc | split; [exact Hs | exact Hm]].
Defined.

(** C4 as stated fails: sixty words with every keyword and heading of the
    scenario, "action" and "should" as whole words, and no word of harm,
    score 9, and the "Impact evaluation" tag is "mid". *)
Lemma full_marks_scenario_counterexample :
  wordCount answer_keywords = 60 /\
  forallb (includes answer_keywords)
    [js "consent"; js "transparency"; js "bias"; js "fairness"; js "trust";
     js "residents"; js "DPIA"; js "action"; js "should";
     js "1)"; js "2)"; js "3)"] = true /\
  actionMarkers answer_keywords = 2 /\
  mentionsHarm (toLowerCase answer_keywords) = false /\
  Res.gated (markEthicsResponse answer_keywords) = false /\
  Res.score (markEthicsResponse answer_keywords) = Some 9 /\
  option_map (map status) (Res.tags (markEthicsResponse answer_keywords))
  = Some [js "ok"; js "ok"; js "mid"; js "ok"; js "ok"].
Proof. repeat split; vm_compute; reflexivity. Qed.

(** * Further properties *)

(** ** Word counts of joined and cut texts *)

Lemma runs_from_flag (s : jsstring) :
  (runs_from false s <= runs_from true s <= runs_from false s + 1)%nat.
Proof. destruct s as [|c s]; simpl; [lia|]. destruct (isWhiteSpace c); lia. Qed.

Lemma runs_from_app (a b : jsstring) :
  forall p, exists q,
    runs_from p (a ++ b) = (runs_from p a + runs_from q b)%nat /\
    (q = false -> p = false \/ (1 <= runs_from p a)%nat).
Proof.
  induction a as [|c a IH]; intro p.
  - exists p. split; [reflexivity | auto].
  - cbn [app]. rewrite !runs_from_cons. destruct (isWhiteSpace c).
    + destruct (IH true) as (q & Hq & Hone). exists q. split; trivial.
      intro Hf. destruct (Hone Hf); [discriminate | auto].
    + destruct (IH false) as (q & Hq & _). exists q. split; [lia|].
      intros _. destruct p; [right; lia | now left].
Qed.

Lemma runs_from_length (s : jsstring) :
  forall p, (2 * runs_from p s <= length s + (if p then 1 else 0))%nat.
Proof.
  induction s as [|c s IH]; intro p; [simpl; lia|].
  rewrite runs_from_cons. cbn [length].
  destruct (isWhiteSpace c).
  - specialize (IH true). cbv iota in IH. destruct p; lia.
  - specialize (IH false). cbv iota in IH. destruct p; lia.
Qed.

Lemma wordCount_half (s : jsstring) :
  0 <= wordCount s /\ 2 * wordCount s <= Z.of_nat (length s) + 1.
Proof.
  rewrite wordCount_eq_runs. unfold nonWhitespaceRuns.
  pose proof (runs_from_length s true) as H.
  change (if true then 1 else 0)%nat with 1%nat in H. lia.
Qed.

(** X1. The word count of a text is never negative and never more than half
    its length, rounded up. *)
Theorem wordCount_length (s : jsstring) :
  0 <= wordCount s /\ 2 * wordCount s <= Z.of_nat (length s) + 1.
Proof.
  rewrite wordCount_eq_runs. unfold nonWhitespaceRuns.
  pose proof (runs_from_length s true) as H.
  change (if true then 1 else 0)%nat with 1%nat in H. lia.
Qed.

Lemma runs_join (a b : jsstring) :
  (runs_from true a <= runs_from true (a ++ b) /\
   runs_from true b <= runs_from true (a ++ b) /\
   runs_from true (a ++ b) <= runs_from true a + runs_from true b /\
   runs_from true a + runs_from true b <= runs_from true (a ++ b) + 1)%nat.
Proof.
  destruct (runs_from_app a b true) as (q & Hq & Hone).
  pose proof (runs_from_flag b) as Hb.
  assert (Hqb : (runs_from q b <= runs_from true b <= runs_from q b + 1)%nat)
    by (destruct q; lia).
  assert (Hmerge : (runs_from true b <= runs_from true a + runs_from q b)%nat).
  { destruct q; [lia|]. destruct (Hone eq_refl); [discriminate | lia]. }
  lia.
Qed.

Lemma runs_sep (a w b : jsstring) :
  blank w -> w <> [] ->
  runs_from true (a ++ w ++ b) = (runs_from true a + runs_from true b)%nat.
Proof.
  intros Hw Hne.
  destruct (runs_from_app a (w ++ b) true) as (q & Hq & _).
  now rewrite Hq, (runs_from_blank_cons w b q Hw Hne).
Qed.

Lemma wordCount_prefix (a b : jsstring) : wordCount a <= wordCount (a ++ b).
Proof.
  rewrite !wordCount_eq_runs. unfold nonWhitespaceRuns.
  pose proof (runs_join a b). lia.
Qed.

Lemma wordCount_sep (a w b : jsstring) :
  blank w -> w <> [] -> wordCount (a ++ w ++ b) = wordCount a + wordCount b.
Proof.
  intros Hw Hne. rewrite !wordCount_eq_runs. unfold nonWhitespaceRuns.
  rewrite (runs_sep a w b Hw Hne). lia.
Qed.

(** X2. Joining two texts: the result has at least as many words as either
    part, at most the sum, and at least the sum less one (the last word of
    the first part and the first word of the second may merge). With white
    space between the parts the counts add up. *)
Theorem wordCount_app (a b : jsstring) :
  wordCount a <= wordCount (a ++ b) /\
  wordCount b <= wordCount (a ++ b) /\
  wordCount (a ++ b) <= wordCount a + wordCount b /\
  wordCount a + wordCount b - 1 <= wordCount (a ++ b) /\
  (forall w, blank w -> w <> [] ->
     wordCount (a ++ w ++ b) = wordCount a + wordCount b).
Proof.
  pose proof (runs_join a b) as Hj.
  split; [|split; [|split; [|split]]];
    try (rewrite !wordCount_eq_runs; unfold nonWhitespaceRuns; lia).
  intros w Hw Hne. rewrite !wordCount_eq_runs. unfold nonWhitespaceRuns.
  rewrite (runs_sep a w b Hw Hne). lia.
Qed.

Lemma wordCount_app_witness :
  wordCount (js "the town" ++ js " " ++ js "hall") = wordCount (js "the town") + wordCount (js "hall") /\
  wordCount (js "the town" ++ js "hall") = 2.
Proof.
  destruct (wordCount_app (js "the town") (js "hall")) as (_ & _ & _ & _ & Hsep).
  split.
  - apply Hsep; [reflexivity | discriminate].
  - reflexivity.
Defined.

(** ** [clampStr] *)

Lemma slice0_firstn (s : jsstring) (max : Z) :
  exists n, slice0 s max = firstn n s.
Proof. unfold slice0. eexists. reflexivity. Qed.

Lemma slice0_nonneg (s : jsstring) (max : Z) :
  0 <= max -> slice0 s max = firstn (Z.to_nat max) s.
Proof.
  intro H. unfold slice0.
  assert (Hneg : (max <? 0) = false) by (apply Z.ltb_ge; exact H).
  rewrite Hneg.
  destruct (Z.le_ge_cases max (Z.of_nat (length s))) as [Hle | Hge].
  - now rewrite Z.min_l.
  - rewrite Z.min_r by trivial. rewrite Nat2Z.id.
    rewrite !firstn_all2; trivial. lia.
Qed.

Lemma clampStr_firstn (s : jsstring) (max : Z) :
  exists n, clampStr (Some s) max = firstn n s.
Proof. apply slice0_firstn. Qed.

Lemma clampStr_nonneg (s : jsstring) (max : Z) :
  0 <= max -> clampStr (Some s) max = firstn (Z.to_nat max) s.
Proof. apply slice0_nonneg. Qed.

Lemma clampStr_words (s : jsstring) (max : Z) :
  wordCount (clampStr (Some s) max) <= wordCount s.
Proof.
  destruct (clampStr_firstn s max) as [n ->].
  rewrite <- (firstn_skipn n s) at 2. apply wordCount_prefix.
Qed.

(** X3. [clampStr] keeps a prefix of the text: for a limit that is not
    negative, the first [max] code units, so the whole text when it is
    short enough; clamping twice is clamping once; a missing field gives
    the empty string. *)
Theorem clampStr_prefix (s : jsstring) (max : Z) :
  (exists rest, s = clampStr (Some s) max ++ rest) /\
  (0 <= max ->
   Z.of_nat (length (clampStr (Some s) max)) = Z.min max (Z.of_nat (length s))) /\
  (0 <= max -> Z.of_nat (length s) <= max -> clampStr (Some s) max = s) /\
  (0 <= max -> clampStr (Some (clampStr (Some s) max)) max = clampStr (Some s) max) /\
  clampStr None max = [].
Proof.
  unfold clampStr. split; [|split; [|split; [|split]]].
  - destruct (slice0_firstn s max) as [n ->].
    exists (skipn n s). now rewrite firstn_skipn.
  - intro H. rewrite slice0_nonneg, length_firstn by trivial. lia.
  - intros H Hlen. rewrite slice0_nonneg by trivial.
    apply firstn_all2. lia.
  - intro H. rewrite !slice0_nonneg by trivial.
    rewrite firstn_firstn. now rewrite Nat.min_id.
  - unfold slice0. now rewrite firstn_nil.
Qed.

Lemma clampStr_prefix_witness :
  clampStr (Some (js "abcdef")) 4 = js "abcd" /\
  clampStr (Some (js "abc")) 4 = js "abc" /\
  clampStr (Some (clampStr (Some (js "abcdef")) 4)) 4 = clampStr (Some (js "abcdef")) 4.
Proof.
  destruct (clampStr_prefix (js "abcdef") 4) as (_ & _ & _ & Hidem & _).
  destruct (clampStr_prefix (js "abc") 4) as (_ & _ & Hall & _).
  split; [reflexivity | split].
  - apply Hall; [lia | vm_compute; discriminate].
  - apply Hidem. lia.
Defined.

(** X4. Cutting a text never adds words: the clamped text has at most the
    words of the text, so an answer under the gate stays under it. *)
Theorem clampStr_wordCount (s : jsstring) (max : Z) :
  wordCount (clampStr (Some s) max) <= wordCount s.
Proof.
  unfold clampStr. destruct (slice0_firstn s max) as [n ->].
  rewrite !wordCount_eq_runs. unfold nonWhitespaceRuns.
  pose proof (runs_join (firstn n s) (skipn n s)) as Hj.
  rewrite firstn_skipn in Hj. lia.
Qed.

(** ** The marking route *)

(** X5. [/api/mark] without a valid session answers 401 and marks nothing.
    With one it answers 200 with the marking of the first 6000 code units
    of the text: what follows them changes nothing, the word count
    reported is at most 3000, a text under 50 words is gated whatever its
    length, and a missing text is gated with 0 words. *)
Theorem markRoute_clamped (answerText extra : jsstring) :
  Mark.status (apiMark false (Some answerText)) = 401 /\
  Mark.result (apiMark false (Some answerText)) = None /\
  Mark.status (apiMark true (Some answerText)) = 200 /\
  Mark.result (apiMark true (Some answerText))
  = Some (markEthicsResponse (firstn (Z.to_nat 6000) answerText)) /\
  (6000 <= Z.of_nat (length answerText) ->
   apiMark true (Some (answerText ++ extra)) = apiMark true (Some answerText)) /\
  Res.wordCount (markEthicsResponse (clampStr (Some answerText) 6000)) <= 3000 /\
  (wordCount answerText < 50 ->
   Res.gated (markEthicsResponse (clampStr (Some answerText) 6000)) = true) /\
  Mark.result (apiMark true None)
  = Some (markEthicsResponse []) /\
  Res.gated (markEthicsResponse []) = true /\
  Res.wordCount (markEthicsResponse []) = 0.
Proof.
  assert (Hclamp : forall s, clampStr (Some s) 6000 = firstn (Z.to_nat 6000) s).
  { intro s. apply clampStr_nonneg. lia. }
  assert (Hwc : forall s, Res.wordCount (markEthicsResponse s) = wordCount s).
  { intro s. destruct (Z.lt_ge_cases (wordCount s) 50) as [H | H].
    - now rewrite (markEthicsResponse_gated _ H).
    - now rewrite (markEthicsResponse_ungated _ H). }
  unfold apiMark, markRoute. cbn [negb Mark.status Mark.result].
  rewrite !Hclamp.
  split; [reflexivity | split; [reflexivity | split; [reflexivity |
    split; [reflexivity | split; [|split; [|split; [|split; [|split]]]]]]]].
  - intro Hlen. rewrite firstn_app.
    replace (Z.to_nat 6000 - length answerText)%nat with 0%nat by lia.
    now rewrite firstn_O, app_nil_r.
  - rewrite Hwc.
    pose proof (wordCount_half (firstn (Z.to_nat 6000) answerText)) as [_ Hb].
    rewrite length_firstn in Hb. lia.
  - intro Hlt.
    pose proof (clampStr_words answerText 6000) as Hle.
    rewrite Hclamp in Hle.
    rewrite markEthicsResponse_gated by lia. reflexivity.
  - reflexivity.
  - reflexivity.
  - reflexivity.
Qed.

Lemma markRoute_clamped_witness :
  wordCount (js "The council got it wrong.") < 50 /\
  Res.gated (markEthicsResponse (clampStr (Some (js "The council got it wrong.")) 6000)) = true.
Proof.
  destruct (markRoute_clamped (js "The council got it wrong.") [])
    as (_ & _ & _ & _ & _ & _ & Hg & _).
  assert (Hwc : wordCount (js "The council got it wrong.") < 50) by reflexivity.
  split; [exact Hwc | exact (Hg Hwc)].
Defined.

(** ** Levels, score and notes *)

Lemma notes_bind {A B : Type} (m : M A) (k : A -> M B) :
  framed m -> (forall a, framed (k a)) ->
  notes (snd (bind m k start))
  = notes (snd (m start)) ++ notes (snd (k (fst (m start)) start)).
Proof.
  intros Hm Hk. unfold bind. rewrite (Hm start), Hk. reflexivity.
Qed.

Lemma framed_notes {A : Type} (m : M A) (st : Marking) :
  framed m -> notes (snd (m st)) = notes st ++ notes (snd (m start)).
Proof. intro H. now rewrite H. Qed.

Lemma tier_id (l : Z) :
  0 <= l <= 2 -> (if l >=? 2 then 2 else if l =? 1 then 1 else 0) = l.
Proof.
  intro H. rewrite Z.geb_leb.
  destruct (Z.leb_spec 2 l), (Z.eqb_spec l 1); lia.
Qed.

Lemma levels_range (a : jsstring) :
  0 <= failuresLevel (levels a) <= 2 /\
  0 <= impactLevel (levels a) <= 2 /\
  0 <= recsLevel (levels a) <= 2 /\
  (legalLevel (levels a) = 0 \/ legalLevel (levels a) = 2) /\
  (structureLevel (levels a) = 1 \/ structureLevel (levels a) = 2).
Proof.
  rewrite levels_steps.
  cbn [failuresLevel impactLevel recsLevel legalLevel structureLevel].
  rewrite markFailures_level, markImpact_level, markRecs_level,
    markLegal_level, markStructure_level, markImpact_points, markRecs_points.
  split_ifs; lia.
Qed.

Lemma rawScore_levels (a : jsstring) :
  rawScore a =
  (if failuresLevel (levels a) =? 2 then 3 else failuresLevel (levels a))
  + (impactLevel (levels a) + 1)
  + recsLevel (levels a)
  + (if legalLevel (levels a) =? 2 then 1 else 0)
  + (structureLevel (levels a) - 1).
Proof.
  rewrite rawScore_sum, levels_steps.
  cbn [failuresLevel impactLevel recsLevel legalLevel structureLevel].
  rewrite markFailures_level, markImpact_level, markRecs_level,
    markLegal_level, markStructure_level, markFailures_points,
    markLegal_points, markStructure_points.
  generalize (points (markImpact (toLowerCase a))) (points (markRecs (toLowerCase a) a)).
  intros pi pr.
  destruct (themesFound (toLowerCase a) >=? 2), (themesFound (toLowerCase a) =? 1),
    (usesTerms (toLowerCase a)), (hasStructure (toLowerCase a));
    cbn [Z.eqb Pos.eqb]; lia.
Qed.

(** X6. Past the gate the score is read off the five levels: 3, 1 or 0
    marks for failures at level 2, 1 or 0, the impact level plus one, the
    recommendations level, one mark for terminology at level 2 and one for
    structure at level 2. The legal level is 0 or 2 and the structure level
    1 or 2. The score is 10 exactly when all five levels are 2. *)
Theorem score_from_levels (answerText : jsstring) :
  50 <= wordCount answerText ->
  (0 <= failuresLevel (levels answerText) <= 2 /\
   0 <= impactLevel (levels answerText) <= 2 /\
   0 <= recsLevel (levels answerText) <= 2 /\
   (legalLevel (levels answerText) = 0 \/ legalLevel (levels answerText) = 2) /\
   (structureLevel (levels answerText) = 1 \/ structureLevel (levels answerText) = 2)) /\
  Res.score (markEthicsResponse answerText)
  = Some ((if failuresLevel (levels answerText) =? 2 then 3
           else failuresLevel (levels answerText))
          + (impactLevel (levels answerText) + 1)
          + recsLevel (levels answerText)
          + (if legalLevel (levels answerText) =? 2 then 1 else 0)
          + (structureLevel (levels answerText) - 1)) /\
  (Res.score (markEthicsResponse answerText) = Some 10 <->
   levels answerText = {| failuresLevel := 2; impactLevel := 2; recsLevel := 2;
                          legalLevel := 2; structureLevel := 2 |}).
Proof.
  intro Hwc.
  pose proof (levels_range answerText) as Hr.
  pose proof (rawScore_levels answerText) as Hs.
  pose proof (rawScore_bounds answerText) as Hb.
  rewrite (markEthicsResponse_ungated _ Hwc). cbn [Res.score].
  assert (Hc : Z.max 0 (Z.min 10 (rawScore answerText)) = rawScore answerText) by lia.
  rewrite Hc. split; [exact Hr | split; [now rewrite Hs|]].
  rewrite Hs. clear Hs Hb Hc.
  destruct (levels answerText) as [fl il rl ll sl].
  cbn [failuresLevel impactLevel recsLevel legalLevel structureLevel] in *.
  destruct Hr as (Hf & Hi & Hrr & Hl & Hst).
  split.
  - intro H. injection H as H.
    destruct (Z.eqb_spec fl 2), (Z.eqb_spec ll 2), Hl, Hst;
      try lia; f_equal; lia.
  - intro H. injection H as -> -> -> -> ->. reflexivity.
Qed.

Lemma score_from_levels_witness :
  50 <= wordCount answer_full /\
  Res.score (markEthicsResponse answer_full) = Some 10 /\
  levels answer_full = {| failuresLevel := 2; impactLevel := 2; recsLevel := 2;
                          legalLevel := 2; structureLevel := 2 |}.
Proof.
  assert (Hwc : 50 <= wordCount answer_full) by (vm_compute; discriminate).
  destruct (score_from_levels answer_full Hwc) as (_ & _ & Hiff).
  assert (Hs : Res.score (markEthicsResponse answer_full) = Some 10)
    by (vm_compute; reflexivity).
  split; [exact Hwc | split; [exact Hs | exact (proj1 Hiff Hs)]].
Defined.

(** *** Notes *)

Lemma markFailures_quiet (t : jsstring) :
  (notes (snd (markFailures t start)) = [] <-> fst (markFailures t start) = 2) /\
  (length (notes (snd (markFailures t start))) <= 1)%nat.
Proof.
  unfold markFailures. split_ifs; cbn; (split; [split; intro H; discriminate || reflexivity | lia]).
Qed.

Lemma markImpact_quiet (t : jsstring) :
  (notes (snd (markImpact t start)) = [] <-> 1 <= fst (markImpact t start)) /\
  (length (notes (snd (markImpact t start))) <= 1)%nat.
Proof.
  unfold markImpact. split_ifs; cbn;
    (split; [split; intro H; discriminate || reflexivity || lia | lia]).
Qed.

Lemma markRecs_quiet (t a : jsstring) :
  (notes (snd (markRecs t a start)) = [] <-> fst (markRecs t a start) = 2) /\
  (length (notes (snd (markRecs t a start))) <= 1)%nat.
Proof.
  unfold markRecs. split_ifs; cbn; (split; [split; intro H; discriminate || reflexivity | lia]).
Qed.

Lemma markLegal_quiet (t : jsstring) :
  (notes (snd (markLegal t start)) = [] <-> fst (markLegal t start) = 2) /\
  (length (notes (snd (markLegal t start))) <= 1)%nat.
Proof.
  unfold markLegal. split_ifs; cbn; (split; [split; intro H; discriminate || reflexivity | lia]).
Qed.

Lemma markStructure_quiet (t : jsstring) :
  (notes (snd (markStructure t start)) = [] <-> fst (markStructure t start) = 2) /\
  (length (notes (snd (markStructure t start))) <= 1)%nat.
Proof.
  unfold markStructure. split_ifs; cbn; (split; [split; intro H; discriminate || reflexivity | lia]).
Qed.

Lemma criteria_notes (a : jsstring) :
  notes (snd (criteria a start)) =
  notes (snd (markFailures (toLowerCase a) start))
  ++ notes (snd (markImpact (toLowerCase a) start))
  ++ notes (snd (markRecs (toLowerCase a) a start))
  ++ notes (snd (markLegal (toLowerCase a) start))
  ++ notes (snd (markStructure (toLowerCase a) start)).
Proof.
  unfold criteria.
  repeat (rewrite notes_bind by auto 20 with framed).
  cbn [ret snd notes start]. now rewrite app_nil_r.
Qed.

Lemma finalNotes_split (a : jsstring) :
  finalNotes a =
  notes (snd (criteria a start))
  ++ notes (snd (lengthNotes (wordCount a) start)).
Proof. unfold finalNotes. apply framed_notes, lengthNotes_framed. Qed.

Lemma lengthNotes_cases (wc : Z) :
  notes (snd (lengthNotes wc start)) =
  if wc <? 100 then [js "Length: Aim for 100–250 words (yours is a bit short)."]
  else if wc >? 250 then [js "Length: Aim for 100–250 words (yours is a bit long)."]
  else [].
Proof.
  unfold lengthNotes, when. rewrite Z.gtb_ltb.
  destruct (Z.ltb_spec wc 100), (Z.ltb_spec 250 wc); try reflexivity; lia.
Qed.

(** ** Feedback *)

Lemma mkFeedback_strong (l : list jsstring) :
  mkFeedback l
  = js "Strong response — you identified key issues, explained impact, and gave practical improvements."
  <-> l = [].
Proof.
  split.
  - destruct l as [|x l]; trivial.
    intro E. apply (f_equal (hd 0%N)) in E. vm_compute in E. discriminate E.
  - now intros ->.
Qed.

Lemma app_nil_iff {A : Type} (l l' : list A) :
  l ++ l' = [] <-> l = [] /\ l' = [].
Proof.
  split; [apply app_eq_nil | now intros [-> ->]].
Qed.

Lemma finalNotes_nil (a : jsstring) :
  finalNotes a = [] <->
  failuresLevel (levels a) = 2 /\ 1 <= impactLevel (levels a) /\
  recsLevel (levels a) = 2 /\ legalLevel (levels a) = 2 /\
  structureLevel (levels a) = 2 /\ 100 <= wordCount a <= 250.
Proof.
  rewrite finalNotes_split, criteria_notes, levels_steps.
  cbn [failuresLevel impactLevel recsLevel legalLevel structureLevel].
  rewrite !app_nil_iff.
  rewrite (proj1 (markFailures_quiet _)), (proj1 (markImpact_quiet _)),
    (proj1 (markRecs_quiet _ _)), (proj1 (markLegal_quiet _)),
    (proj1 (markStructure_quiet _)), lengthNotes_cases.
  rewrite Z.gtb_ltb.
  destruct (Z.ltb_spec (wordCount a) 100), (Z.ltb_spec 250 (wordCount a));
    intuition (try discriminate; try lia).
Qed.

(** X7. Past the gate the feedback is the commendation exactly when no note
    was collected: failures, recommendations, terminology and structure at
    level 2, impact at level 1 or 2, and 100 to 250 words. The score is
    then 9 or 10. Any other feedback starts with "To improve:" and a
    bullet. *)
Theorem commendation_iff (answerText : jsstring) :
  50 <= wordCount answerText ->
  (Res.feedback (markEthicsResponse answerText)
   = Some (js "Strong response — you identified key issues, explained impact, and gave practical improvements.")
   <->
   failuresLevel (levels answerText) = 2 /\ 1 <= impactLevel (levels answerText) /\
   recsLevel (levels answerText) = 2 /\ legalLevel (levels answerText) = 2 /\
   structureLevel (levels answerText) = 2 /\ 100 <= wordCount answerText <= 250) /\
  (Res.feedback (markEthicsResponse answerText)
   = Some (js "Strong response — you identified key issues, explained impact, and gave practical improvements.")
   -> exists s, Res.score (markEthicsResponse answerText) = Some s /\ 9 <= s <= 10) /\
  (Res.feedback (markEthicsResponse answerText)
   <> Some (js "Strong response — you identified key issues, explained impact, and gave practical improvements.")
   -> exists body, Res.feedback (markEthicsResponse answerText)
                   = Some (js "To improve:" ++ nl ++ js "- " ++ body)).
Proof.
  intro Hwc.
  pose proof (rawScore_bounds answerText) as Hb.
  pose proof (rawScore_levels answerText) as Hs.
  pose proof (levels_range answerText) as Hr.
  rewrite (markEthicsResponse_ungated _ Hwc). cbn [Res.feedback Res.score].
  fold (finalNotes answerText).
  assert (Hstrong : Some (mkFeedback (finalNotes answerText))
            = Some (js "Strong response — you identified key issues, explained impact, and gave practical improvements.")
            <-> finalNotes answerText = []).
  { rewrite <- mkFeedback_strong. split; [intro H; now injection H | now intros ->]. }
  rewrite Hstrong, finalNotes_nil.
  split; [reflexivity | split].
  - intros (Hf & Hi & Hrc & Hl & Hst & _).
    exists (rawScore answerText). split; [f_equal; lia|].
    rewrite Hs, Hf, Hrc, Hl, Hst. cbn [Z.eqb Pos.eqb]. lia.
  - intro Hnot. rewrite <- finalNotes_nil in Hnot.
    destruct (finalNotes answerText) as [|x l]; [now contradiction Hnot|].
    eexists. unfold mkFeedback. cbn [length Nat.eqb]. reflexivity.
Qed.

Lemma commendation_iff_witness :
  50 <= wordCount answer_long /\
  Res.feedback (markEthicsResponse answer_long)
  = Some (js "Strong response — you identified key issues, explained impact, and gave practical improvements.") /\
  exists body, Res.feedback (markEthicsResponse answer_full)
               = Some (js "To improve:" ++ nl ++ js "- " ++ body).
Proof.
  assert (Hlong : 50 <= wordCount answer_long) by (vm_compute; discriminate).
  assert (Hwc : 50 <= wordCount answer_full) by (vm_compute; discriminate).
  destruct (commendation_iff answer_long Hlong) as (Hiff & _).
  destruct (commendation_iff answer_full Hwc) as (_ & _ & Himp).
  split; [exact Hlong | split].
  - apply Hiff. vm_compute. repeat split; discriminate.
  - apply Himp. vm_compute. discriminate.
Defined.

(** X8. The length guidance past the gate: under 100 words the last note is
    the "a bit short" one, over 250 words it is the "a bit long" one, from
    100 to 250 words there is none; never both. The five criteria give at
    most one note each, so there are at most six notes, and an answer of 50
    to 99 words never gets the commendation. *)
Theorem length_guidance (answerText : jsstring) :
  50 <= wordCount answerText ->
  Res.feedback (markEthicsResponse answerText) = Some (mkFeedback (finalNotes answerText)) /\
  (wordCount answerText < 100 ->
   finalNotes answerText
   = notes (snd (criteria answerText start))
     ++ [js "Length: Aim for 100–250 words (yours is a bit short)."]) /\
  (250 < wordCount answerText ->
   finalNotes answerText
   = notes (snd (criteria answerText start))
     ++ [js "Length: Aim for 100–250 words (yours is a bit long)."]) /\
  (100 <= wordCount answerText <= 250 ->
   finalNotes answerText = notes (snd (criteria answerText start))) /\
  (length (notes (snd (criteria answerText start))) <= 5)%nat /\
  (length (finalNotes answerText) <= 6)%nat /\
  (wordCount answerText < 100 ->
   exists body, Res.feedback (markEthicsResponse answerText)
                = Some (js "To improve:" ++ nl ++ js "- " ++ body)).
Proof.
  intro Hwc.
  assert (Hcrit : (length (notes (snd (criteria answerText start))) <= 5)%nat).
  { rewrite criteria_notes, !length_app.
    pose proof (proj2 (markFailures_quiet (toLowerCase answerText))).
    pose proof (proj2 (markImpact_quiet (toLowerCase answerText))).
    pose proof (proj2 (markRecs_quiet (toLowerCase answerText) answerText)).
    pose proof (proj2 (markLegal_quiet (toLowerCase answerText))).
    pose proof (proj2 (markStructure_quiet (toLowerCase answerText))).
    lia. }
  assert (Hshort : wordCount answerText < 100 ->
            finalNotes answerText
            = notes (snd (criteria answerText start))
              ++ [js "Length: Aim for 100–250 words (yours is a bit short)."]).
  { intro H. rewrite finalNotes_split, lengthNotes_cases.
    destruct (Z.ltb_spec (wordCount answerText) 100); [reflexivity | lia]. }
  rewrite (markEthicsResponse_ungated _ Hwc). cbn [Res.feedback].
  fold (finalNotes answerText).
  split; [reflexivity | split; [exact Hshort | split; [|split; [|split; [exact Hcrit | split]]]]].
  - intro H. rewrite finalNotes_split, lengthNotes_cases, Z.gtb_ltb.
    destruct (Z.ltb_spec (wordCount answerText) 100); [lia|].
    destruct (Z.ltb_spec 250 (wordCount answerText)); [reflexivity | lia].
  - intro H. rewrite finalNotes_split, lengthNotes_cases, Z.gtb_ltb.
    destruct (Z.ltb_spec (wordCount answerText) 100); [lia|].
    destruct (Z.ltb_spec 250 (wordCount answerText)); [lia|].
    now rewrite app_nil_r.
  - rewrite finalNotes_split, length_app, lengthNotes_cases, Z.gtb_ltb.
    destruct (Z.ltb_spec (wordCount answerText) 100);
      [|destruct (Z.ltb_spec 250 (wordCount answerText))]; cbn [length]; lia.
  - intro H. rewrite (Hshort H).
    destruct (notes (snd (criteria answerText start))) as [|x l];
      eexists; unfold mkFeedback; cbn [app length Nat.eqb]; reflexivity.
Qed.

Lemma length_guidance_witness :
  50 <= wordCount answer_full /\ wordCount answer_full < 100 /\
  finalNotes answer_full = [js "Length: Aim for 100–250 words (yours is a bit short)."].
Proof.
  assert (Hwc : 50 <= wordCount answer_full) by (vm_compute; discriminate).
  assert (Hlt : wordCount answer_full < 100) by (vm_compute; reflexivity).
  destruct (length_guidance answer_full Hwc) as (_ & Hshort & _).
  split; [exact Hwc | split; [exact Hlt|]].
  rewrite (Hshort Hlt). vm_compute. reflexivity.
Defined.

(** ** Strengths, tags and grid *)

Lemma mkStrengths_length (lv : Levels) (u h : bool) :
  length (mkStrengths lv u h) =
  ((if failuresLevel lv >=? 2 then 1 else 0)
   + (if impactLevel lv >=? 1 then 1 else 0)
   + (if recsLevel lv >=? 1 then 1 else 0)
   + (if u then 1 else 0) + (if h then 1 else 0))%nat.
Proof.
  unfold mkStrengths. rewrite !length_app.
  destruct (failuresLevel lv >=? 2), (impactLevel lv >=? 1), (recsLevel lv >=? 1), u, h;
    reflexivity.
Qed.

Lemma legalLevel_usesTerms (a : jsstring) :
  legalLevel (levels a) = if usesTerms (toLowerCase a) then 2 else 0.
Proof. rewrite levels_steps. apply markLegal_level. Qed.

Lemma structureLevel_hasStructure (a : jsstring) :
  structureLevel (levels a) = if hasStructure (toLowerCase a) then 2 else 1.
Proof. rewrite levels_steps. apply markStructure_level. Qed.

(** X9. Past the gate there are never more than three strengths; an answer
    that scores 7 or more has exactly three, and an answer with none scores
    at most 2. *)
Theorem strengths_count (answerText : jsstring) :
  50 <= wordCount answerText ->
  exists l s,
    Res.strengths (markEthicsResponse answerText) = Some l /\
    Res.score (markEthicsResponse answerText) = Some s /\
    (length l <= 3)%nat /\
    (7 <= s -> length l = 3%nat) /\
    (l = [] -> s <= 2).
Proof.
  intro Hwc.
  pose proof (rawScore_bounds answerText) as Hb.
  pose proof (rawScore_levels answerText) as Hs.
  pose proof (levels_range answerText) as (Hf & Hi & Hr & _ & _).
  pose proof (legalLevel_usesTerms answerText) as Hl.
  pose proof (structureLevel_hasStructure answerText) as Hst.
  rewrite (markEthicsResponse_ungated _ Hwc). cbn [Res.strengths Res.score].
  do 2 eexists. split; [reflexivity | split; [reflexivity|]].
  assert (Hc : Z.max 0 (Z.min 10 (rawScore answerText)) = rawScore answerText) by lia.
  rewrite Hc, Hs, Hl, Hst. clear Hc Hs Hb Hl Hst.
  assert (Hnil : forall l : list jsstring, l = [] -> length l = 0%nat) by (now intros l ->).
  split; [|split].
  - rewrite length_firstn. lia.
  - rewrite length_firstn, mkStrengths_length, !Z.geb_leb.
    destruct (Z.leb_spec 2 (failuresLevel (levels answerText))),
      (Z.eqb_spec (failuresLevel (levels answerText)) 2),
      (Z.leb_spec 1 (impactLevel (levels answerText))),
      (Z.leb_spec 1 (recsLevel (levels answerText))),
      (usesTerms (toLowerCase answerText)), (hasStructure (toLowerCase answerText));
      cbn [Z.eqb Pos.eqb]; lia.
  - intro E. apply Hnil in E.
    rewrite length_firstn, mkStrengths_length, !Z.geb_leb in E.
    destruct (Z.leb_spec 2 (failuresLevel (levels answerText))),
      (Z.eqb_spec (failuresLevel (levels answerText)) 2),
      (Z.leb_spec 1 (impactLevel (levels answerText))),
      (Z.leb_spec 1 (recsLevel (levels answerText))),
      (usesTerms (toLowerCase answerText)), (hasStructure (toLowerCase answerText));
      cbn [Z.eqb Pos.eqb] in *; lia.
Qed.

Lemma strengths_count_witness :
  50 <= wordCount answer_plain /\
  Res.strengths (markEthicsResponse answer_plain) = Some [] /\
  Res.score (markEthicsResponse answer_plain) = Some 1.
Proof.
  assert (Hwc : 50 <= wordCount answer_plain) by (vm_compute; discriminate).
  destruct (strengths_count answer_plain Hwc) as (l & s & Hl & Hs & _).
  split; [exact Hwc | split; vm_compute; reflexivity].
Defined.

Lemma status_tier (l : Z) :
  (2 <= l /\ tagStatus l = js "ok" /\ statusFromLevel l = js "✓ Secure") \/
  (l = 1 /\ tagStatus l = js "mid" /\ statusFromLevel l = js "◐ Developing") \/
  (l < 2 /\ l <> 1 /\ tagStatus l = js "bad" /\ statusFromLevel l = js "✗ Missing").
Proof.
  unfold tagStatus, statusFromLevel. rewrite Z.geb_leb.
  destruct (Z.leb_spec 2 l); [left; auto|].
  destruct (Z.eqb_spec l 1); [right; left; auto | right; right; auto].
Qed.

Lemma legal_tier (a : jsstring) :
  (if legalLevel (levels a) >=? 2 then 2
   else if hasAny (toLowerCase a) [js "consent"; js "privacy"; js "data protection"]
        then 1 else 0) = legalLevel (levels a) /\
  (if legalLevel (levels a) >=? 2 then 2
   else if usesTerms (toLowerCase a) then 1 else 0) = legalLevel (levels a).
Proof.
  rewrite legalLevel_usesTerms.
  assert (Hsub : hasAny (toLowerCase a) [js "consent"; js "privacy"; js "data protection"] = true ->
                 usesTerms (toLowerCase a) = true).
  { apply hasAny_incl. intros n Hn. cbn [In] in *. tauto. }
  destruct (usesTerms (toLowerCase a)); [split; reflexivity|].
  destruct (hasAny (toLowerCase a) _); [now discriminate Hsub | split; reflexivity].
Qed.

(** X10. Past the gate every tag and every grid row is the status of its
    criterion's own level: the nested re-derivations in the source change
    nothing. The one exception is the "Ethical awareness" tag, which takes
    the higher of the failures and impact levels while the ethical row of
    the grid takes the failures level. The two status helpers pick the same
    tier for every integer: ok and Secure from 2 up, mid and Developing at
    1, bad and Missing for anything else. *)
Theorem tags_grid_by_level (answerText : jsstring) :
  50 <= wordCount answerText ->
  Res.tags (markEthicsResponse answerText) = Some [
    {| name := js "Ethical awareness";
       status := tagStatus (Z.max (failuresLevel (levels answerText))
                                  (impactLevel (levels answerText))) |};
    {| name := js "Legal awareness";
       status := tagStatus (legalLevel (levels answerText)) |};
    {| name := js "Impact evaluation";
       status := tagStatus (impactLevel (levels answerText)) |};
    {| name := js "Practical judgement";
       status := tagStatus (recsLevel (levels answerText)) |};
    {| name := js "Structure & clarity";
       status := tagStatus (structureLevel (levels answerText)) |} ] /\
  Res.grid (markEthicsResponse answerText) = Some
    {| ethical := statusFromLevel (failuresLevel (levels answerText));
       impact := statusFromLevel (impactLevel (levels answerText));
       legal := statusFromLevel (legalLevel (levels answerText));
       recs := statusFromLevel (recsLevel (levels answerText));
       structure := statusFromLevel (structureLevel (levels answerText)) |} /\
  (forall l,
     (2 <= l /\ tagStatus l = js "ok" /\ statusFromLevel l = js "✓ Secure") \/
     (l = 1 /\ tagStatus l = js "mid" /\ statusFromLevel l = js "◐ Developing") \/
     (l < 2 /\ l <> 1 /\ tagStatus l = js "bad" /\ statusFromLevel l = js "✗ Missing")).
Proof.
  intro Hwc.
  pose proof (levels_range answerText) as (Hf & Hi & Hr & Hl & Hs).
  pose proof (legal_tier answerText) as (Hlt & Hlg).
  rewrite (markEthicsResponse_ungated _ Hwc). cbn [Res.tags Res.grid].
  unfold mkTags, mkGrid.
  rewrite Hlt, Hlg.
  rewrite (tier_id (impactLevel (levels answerText))) by lia.
  rewrite (tier_id (recsLevel (levels answerText))) by lia.
  rewrite (tier_id (structureLevel (levels answerText))) by lia.
  rewrite (Z.min_r 2 (Z.max _ _)) by lia.
  split; [reflexivity | split; [reflexivity | exact status_tier]].
Qed.

Lemma tags_grid_by_level_witness :
  50 <= wordCount answer_fairness /\
  option_map (map status) (Res.tags (markEthicsResponse answer_fairness))
  = Some [js "mid"; js "ok"; js "mid"; js "bad"; js "mid"].
Proof.
  assert (Hwc : 50 <= wordCount answer_fairness) by (vm_compute; discriminate).
  destruct (tags_grid_by_level answer_fairness Hwc) as (Ht & _).
  split; [exact Hwc|]. rewrite Ht. vm_compute. reflexivity.
Defined.

(** X11. Past the gate the structure level is 1 or 2, so the "Structure &
    clarity" tag is never "bad" and the structure row of the grid is never
    the Missing marker: the tag is "ok" and the row Secure when a structure
    marker is found, "mid" and Developing otherwise. *)
Theorem structure_never_missing (answerText : jsstring) :
  50 <= wordCount answerText ->
  exists tags g,
    Res.tags (markEthicsResponse answerText) = Some tags /\
    Res.grid (markEthicsResponse answerText) = Some g /\
    nth_error tags 4 =
      Some {| name := js "Structure & clarity";
              status := if hasStructure (toLowerCase answerText)
                        then js "ok" else js "mid" |} /\
    structure g = (if hasStructure (toLowerCase answerText)
                   then js "✓ Secure" else js "◐ Developing") /\
    (forall tg, nth_error tags 4 = Some tg -> status tg <> js "bad") /\
    structure g <> js "✗ Missing".
Proof.
  intro Hwc.
  pose proof (structureLevel_hasStructure answerText) as Hs.
  rewrite (markEthicsResponse_ungated _ Hwc). cbn [Res.tags Res.grid].
  do 2 eexists. split; [reflexivity | split; [reflexivity|]].
  unfold mkTags, mkGrid. cbn [nth_error structure]. rewrite Hs.
  destruct (hasStructure (toLowerCase answerText));
    (split; [reflexivity | split; [reflexivity | split]]).
  - intros tg [= <-]. cbn [status]. intro E. vm_compute in E. discriminate E.
  - intro E. vm_compute in E. discriminate E.
  - intros tg [= <-]. cbn [status]. intro E. vm_compute in E. discriminate E.
  - intro E. vm_compute in E. discriminate E.
Qed.

Lemma structure_never_missing_witness :
  50 <= wordCount answer_plain /\
  exists tags g,
    Res.tags (markEthicsResponse answer_plain) = Some tags /\
    Res.grid (markEthicsResponse answer_plain) = Some g /\
    structure g <> js "✗ Missing".
Proof.
  assert (Hwc : 50 <= wordCount answer_plain) by (vm_compute; discriminate).
  destruct (structure_never_missing answer_plain Hwc)
    as (tags & g & Ht & Hg & _ & _ & _ & Hm).
  split; [exact Hwc|]. exists tags, g.
  split; [exact Ht | split; [exact Hg | exact Hm]].
Defined.

(** ** More text, more detections *)

Lemma hasAny_wider (a p q : jsstring) (l : list jsstring) :
  hasAny (toLowerCase a) l = true -> hasAny (toLowerCase (p ++ a ++ q)) l = true.
Proof.
  intro H. rewrite !toLowerCase_app. now apply hasAny_longer.
Qed.

Lemma countHits_wider (a p q : jsstring) (groups : list (list jsstring)) :
  countHits (toLowerCase a) groups <= countHits (toLowerCase (p ++ a ++ q)) groups.
Proof.
  apply countHits_mono, Forall2_same. intros g _. apply hasAny_wider.
Qed.

Lemma bool_le_wider (b b' : bool) (x y : Z) :
  (b = true -> b' = true) -> 0 <= x -> x <= y ->
  (if b then x else 0) <= (if b' then y else 0).
Proof. destruct b, b'; intros H ? ?; first [lia | discriminate (H eq_refl)]. Qed.

Lemma failures_wider (a p q : jsstring) :
  points (markFailures (toLowerCase a))
  <= points (markFailures (toLowerCase (p ++ a ++ q))).
Proof.
  rewrite !markFailures_points. apply failure_marks_mono, countHits_wider.
Qed.

Lemma impact_wider (a p q : jsstring) :
  points (markImpact (toLowerCase a))
  <= points (markImpact (toLowerCase (p ++ a ++ q))).
Proof.
  set (t := toLowerCase a). set (t' := toLowerCase (p ++ a ++ q)).
  assert (Hw : forall l, hasAny t l = true -> hasAny t' l = true)
    by (intro l; apply hasAny_wider).
  rewrite !markImpact_points.
  unfold mentionsIndividuals, mentionsHarm, mentionsTrust, mentionsFairness.
  pose proof (Hw [js "individual"; js "people"; js "resident"; js "person"; js "community"]) as H1.
  pose proof (Hw [js "harm"; js "stress"; js "wrongly"; js "misidentif"; js "discrimin"; js "unfair"; js "rights"]) as H2.
  pose proof (Hw [js "trust"; js "confidence"; js "public trust"; js "reputation"; js "legitimacy"]) as H3.
  pose proof (Hw [js "fairness"; js "discrimin"; js "unfair"; js "equal"]) as H4.
  clear Hw.
  repeat match goal with
         | H : hasAny t ?l = true -> hasAny t' ?l = true |- _ =>
           destruct (hasAny t l);
           [rewrite (H eq_refl) | destruct (hasAny t' l)]; clear H
         end; cbn [andb orb]; lia.
Qed.

Lemma legal_wider (a p q : jsstring) :
  points (markLegal (toLowerCase a))
  <= points (markLegal (toLowerCase (p ++ a ++ q))).
Proof.
  rewrite !markLegal_points. unfold usesTerms.
  apply bool_le_wider; [apply hasAny_wider | lia | lia].
Qed.

Lemma structure_wider (a p q : jsstring) :
  points (markStructure (toLowerCase a))
  <= points (markStructure (toLowerCase (p ++ a ++ q))).
Proof.
  rewrite !markStructure_points. unfold hasStructure.
  apply bool_le_wider; [|lia | lia].
  rewrite !orb_true_iff.
  intros [[H | H] | H]; auto using hasAny_wider.
Qed.

(** X12. Text added in front of an answer or behind it never lowers what
    the substring detectors give: the failure themes found, the
    recommendation groups found, and the marks for failures, impact,
    terminology and structure can only stay or grow. (The recommendation
    marks also depend on whole-word action markers, which added letters
    can break.) *)
Theorem detectors_monotone (answerText before after : jsstring) :
  themesFound (toLowerCase answerText)
  <= themesFound (toLowerCase (before ++ answerText ++ after)) /\
  recHits (toLowerCase answerText)
  <= recHits (toLowerCase (before ++ answerText ++ after)) /\
  points (markFailures (toLowerCase answerText))
  <= points (markFailures (toLowerCase (before ++ answerText ++ after))) /\
  points (markImpact (toLowerCase answerText))
  <= points (markImpact (toLowerCase (before ++ answerText ++ after))) /\
  points (markLegal (toLowerCase answerText))
  <= points (markLegal (toLowerCase (before ++ answerText ++ after))) /\
  points (markStructure (toLowerCase answerText))
  <= points (markStructure (toLowerCase (before ++ answerText ++ after))).
Proof.
  split; [apply countHits_wider | split; [apply countHits_wider |]].
  split; [apply failures_wider | split; [apply impact_wider |]].
  split; [apply legal_wider | apply structure_wider].
Qed.

(** ** The case of letters *)

Ltac decide_cmp :=
  repeat match goal with
         | |- context [(?a <=? ?b)%N] =>
           first [ rewrite (proj2 (N.leb_le a b)) by lia
                 | rewrite (proj2 (N.leb_gt a b)) by lia ]
         | |- context [(?a =? ?b)%N] =>
           first [ rewrite (proj2 (N.eqb_eq a b)) by lia
                 | rewrite (proj2 (N.eqb_neq a b)) by lia ]
         end.

Lemma sameFold_cases (c d : N) :
  sameFold c d ->
  c = d \/ ((65 <= c <= 90)%N /\ d = (c + 32)%N) \/ ((65 <= d <= 90)%N /\ c = (d + 32)%N).
Proof.
  unfold sameFold, canonicalize.
  destruct (N.leb_spec 97 c), (N.leb_spec c 122), (N.leb_spec 97 d), (N.leb_spec d 122);
    cbn [andb]; intro E; lia.
Qed.

Lemma letter_units (c : N) :
  (65 <= c <= 90)%N ->
  isWhiteSpace c = false /\ isWhiteSpace (c + 32) = false /\
  isWordChar c = true /\ isWordChar (c + 32) = true /\
  lowerUnit c = [(c + 32)%N] /\ lowerUnit (c + 32) = [(c + 32)%N].
Proof.
  intro H. unfold isWhiteSpace, isWordChar, lowerUnit, isUpperAscii.
  repeat split; decide_cmp; reflexivity.
Qed.

Lemma sameFold_units (c d : N) :
  sameFold c d ->
  isWhiteSpace c = isWhiteSpace d /\ isWordChar c = isWordChar d /\
  lowerUnit c = lowerUnit d.
Proof.
  intro H. destruct (sameFold_cases c d H) as [-> | [[Hc ->] | [Hd ->]]].
  - auto.
  - destruct (letter_units c Hc) as (-> & -> & -> & -> & -> & ->). auto.
  - destruct (letter_units d Hd) as (-> & -> & -> & -> & -> & ->). auto.
Qed.

Lemma toLowerCase_fold (s s' : jsstring) :
  Forall2 sameFold s s' -> toLowerCase s = toLowerCase s'.
Proof.
  induction 1 as [|c d s s' Hcd _ IH]; trivial.
  change (lowerUnit c ++ toLowerCase s = lowerUnit d ++ toLowerCase s').
  destruct (sameFold_units c d Hcd) as (_ & _ & ->). now rewrite IH.
Qed.

Lemma runs_from_fold (s s' : jsstring) :
  Forall2 sameFold s s' -> forall b, runs_from b s = runs_from b s'.
Proof.
  induction 1 as [|c d s s' Hcd _ IH]; intro b; trivial.
  rewrite !runs_from_cons.
  destruct (sameFold_units c d Hcd) as (-> & _ & _). now rewrite !IH.
Qed.

Lemma wordCount_fold (s s' : jsstring) :
  Forall2 sameFold s s' -> wordCount s = wordCount s'.
Proof.
  intro H. rewrite !wordCount_eq_runs. unfold nonWhitespaceRuns.
  now rewrite (runs_from_fold s s' H).
Qed.

Lemma wordBoundary_fold (a a' b b' : option N) :
  optFold a a' -> optFold b b' -> wordBoundary a b = wordBoundary a' b'.
Proof.
  assert (Hw : forall x y, optFold x y -> isWordOpt x = isWordOpt y).
  { intros [x|] [y|] H; cbn in H; try contradiction; trivial.
    cbn. now destruct (sameFold_units x y H) as (_ & -> & _). }
  intros Ha Hb. unfold wordBoundary. now rewrite (Hw _ _ Ha), (Hw _ _ Hb).
Qed.

Lemma hd_error_fold (s s' : jsstring) :
  Forall2 sameFold s s' -> optFold (hd_error s) (hd_error s').
Proof. destruct 1; cbn; trivial. Qed.

Lemma matchChars_fold (p : jsstring) :
  forall s s' last last',
    Forall2 sameFold s s' -> optFold last last' ->
    match matchChars p s last, matchChars p s' last' with
    | Some (l, r), Some (l', r') => optFold l l' /\ Forall2 sameFold r r'
    | None, None => True
    | _, _ => False
    end.
Proof.
  induction p as [|a p IH]; intros s s' last last' Hs Hl; cbn [matchChars].
  - auto.
  - destruct Hs as [|b b' s s' Hb Hs]; trivial.
    unfold sameFold in Hb. rewrite Hb.
    destruct (canonicalize a =? canonicalize b')%N; trivial.
    apply IH; trivial.
Qed.

Lemma matchWordAt_fold (prev prev' : option N) (s s' p : jsstring) :
  Forall2 sameFold s s' -> optFold prev prev' ->
  matchWordAt prev s p = matchWordAt prev' s' p.
Proof.
  intros Hs Hp. unfold matchWordAt.
  rewrite (wordBoundary_fold prev prev' (hd_error s) (hd_error s') Hp
             (hd_error_fold s s' Hs)).
  destruct (wordBoundary prev' (hd_error s')); trivial.
  pose proof (matchChars_fold p s s' prev prev' Hs Hp) as Hm.
  destruct (matchChars p s prev) as [[l r]|], (matchChars p s' prev') as [[l' r']|];
    try contradiction; trivial.
  destruct Hm as [Hl Hr].
  now rewrite (wordBoundary_fold l l' (hd_error r) (hd_error r') Hl
                 (hd_error_fold r r' Hr)).
Qed.

Lemma firstMatchAt_fold (alts : list jsstring) (prev prev' : option N) (s s' : jsstring) :
  Forall2 sameFold s s' -> optFold prev prev' ->
  firstMatchAt prev s alts = firstMatchAt prev' s' alts.
Proof.
  intros Hs Hp. induction alts as [|p alts IH]; trivial.
  cbn [firstMatchAt]. rewrite (matchWordAt_fold prev prev' s s' p Hs Hp).
  now rewrite IH.
Qed.

Lemma countMatches_fold (alts : list jsstring) (s s' : jsstring) :
  Forall2 sameFold s s' ->
  forall prev prev' skip, optFold prev prev' ->
    countMatches alts prev skip s = countMatches alts prev' skip s'.
Proof.
  induction 1 as [|c d s s' Hcd Hs IH]; intros prev prev' skip Hp; trivial.
  cbn [countMatches]. destruct skip as [|k].
  - rewrite (firstMatchAt_fold alts prev prev' (c :: s) (d :: s'))
      by (trivial; now constructor).
    destruct (firstMatchAt prev' (d :: s') alts); [f_equal|]; now apply IH.
  - now apply IH.
Qed.

Lemma actionMarkers_fold (s s' : jsstring) :
  Forall2 sameFold s s' -> actionMarkers s = actionMarkers s'.
Proof.
  intro H. unfold actionMarkers. f_equal.
  now apply countMatches_fold.
Qed.

(** X13. The marking does not look at the case of Basic Latin letters: two
    answers that differ only there get the same result from
    [markEthicsResponse], field by field, in both copies of the marker. *)
Theorem marking_ignores_case (answerText answerText' : jsstring) :
  Forall2 sameFold answerText answerText' ->
  markEthicsResponse answerText = markEthicsResponse answerText' /\
  Server.markEthicsResponse answerText = Server.markEthicsResponse answerText'.
Proof.
  intro H.
  pose proof (wordCount_fold _ _ H) as Hwc.
  pose proof (toLowerCase_fold _ _ H) as Hlow.
  pose proof (actionMarkers_fold _ _ H) as Hact.
  unfold markEthicsResponse, Server.markEthicsResponse, criteria, Server.criteria,
    markRecs, Server.markRecs.
  now rewrite Hwc, Hlow, Hact.
Qed.

Lemma marking_ignores_case_witness :
  Forall2 sameFold (js "The Council SHOULD act") (js "the council should ACT") /\
  markEthicsResponse (js "The Council SHOULD act")
  = markEthicsResponse (js "the council should ACT").
Proof.
  assert (H : Forall2 sameFold (js "The Council SHOULD act") (js "the council should ACT"))
    by (vm_compute; repeat constructor).
  split; [exact H | exact (proj1 (marking_ignores_case _ _ H))].
Defined.

(** ** The template button *)

Lemma wordCount_trim (s : jsstring) : wordCount (trim s) = wordCount s.
Proof.
  rewrite !wordCount_eq_runs. unfold nonWhitespaceRuns.
  now rewrite runs_from_trim.
Qed.

Lemma wordCount_blank_l (w s : jsstring) :
  blank w -> wordCount (w ++ s) = wordCount s.
Proof.
  intro H. rewrite !wordCount_eq_runs. unfold nonWhitespaceRuns.
  now rewrite runs_from_blank_l.
Qed.

Lemma trim_head (s : jsstring) (c : N) (r : jsstring) :
  trim s = c :: r -> isWhiteSpace c = false.
Proof.
  unfold trim. destruct (trimStart_spec s) as (w & _ & _ & Hhd).
  destruct (trimStart s) as [|c0 r0]; [discriminate|].
  specialize (Hhd c0 r0 eq_refl). cbn [trimEnd].
  destruct (trimEnd r0).
  - rewrite Hhd. now intros [= <- _].
  - now intros [= <- _].
Qed.

Lemma trim_nil_iff (s : jsstring) : trim s = [] <-> wordCount s = 0.
Proof.
  split.
  - intro H. unfold wordCount. now rewrite H.
  - intro H. rewrite <- wordCount_trim, wordCount_eq_runs in H.
    destruct (trim s) as [|c r] eqn:E; trivial.
    apply trim_head in E. unfold nonWhitespaceRuns in H.
    rewrite runs_from_cons, E in H. lia.
Qed.

Lemma template_marks :
  wordCount TEMPLATE_TEXT = 40 /\
  points (markFailures (toLowerCase TEMPLATE_TEXT)) = 1 /\
  points (markImpact (toLowerCase TEMPLATE_TEXT)) = 2 /\
  points (markLegal (toLowerCase TEMPLATE_TEXT)) = 1 /\
  points (markStructure (toLowerCase TEMPLATE_TEXT)) = 1.
Proof. repeat split; vm_compute; reflexivity. Qed.

Lemma marks_after (a after : jsstring) :
  points (markFailures (toLowerCase a)) <= points (markFailures (toLowerCase (a ++ after))) /\
  points (markImpact (toLowerCase a)) <= points (markImpact (toLowerCase (a ++ after))) /\
  points (markLegal (toLowerCase a)) <= points (markLegal (toLowerCase (a ++ after))) /\
  points (markStructure (toLowerCase a)) <= points (markStructure (toLowerCase (a ++ after))).
Proof.
  split; [exact (failures_wider a [] after) | split; [exact (impact_wider a [] after) |
    split; [exact (legal_wider a [] after) | exact (structure_wider a [] after)]]].
Qed.

(** X14. The template button leaves the answer alone when no template is
    loaded, fills an empty or blank box with the template, and otherwise
    puts the template, a rule and the trimmed answer one after the other.
    The template alone is 40 words, so marking it is gated; on top of an
    answer it adds 41 words, so an answer of 9 words or more then passes
    the gate, and the headings of the template alone are worth at least 5
    marks. *)
Theorem template_insert (value : jsstring) :
  Client.insertTemplate [] value = value /\
  (wordCount value = 0 -> Client.insertTemplate TEMPLATE_TEXT value = TEMPLATE_TEXT) /\
  Res.gated (markEthicsResponse TEMPLATE_TEXT) = true /\
  (0 < wordCount value ->
   Client.insertTemplate TEMPLATE_TEXT value
   = TEMPLATE_TEXT ++ nl ++ nl ++ js "---" ++ nl ++ nl ++ trim value /\
   wordCount (Client.insertTemplate TEMPLATE_TEXT value) = 41 + wordCount value) /\
  (9 <= wordCount value ->
   Res.gated (markEthicsResponse (Client.insertTemplate TEMPLATE_TEXT value)) = false /\
   exists s, Res.score (markEthicsResponse (Client.insertTemplate TEMPLATE_TEXT value)) = Some s /\
             5 <= s).
Proof.
  destruct template_marks as (Hw & Hpf & Hpi & Hpl & Hps).
  assert (Hnl : blank nl) by reflexivity.
  assert (Hfull : 0 < wordCount value ->
            Client.insertTemplate TEMPLATE_TEXT value
            = TEMPLATE_TEXT ++ nl ++ nl ++ js "---" ++ nl ++ nl ++ trim value).
  { intro H. unfold Client.insertTemplate.
    assert (Ht : truthy TEMPLATE_TEXT = true) by (vm_compute; reflexivity). rewrite Ht.
    destruct (trim value) as [|c r] eqn:E; [|reflexivity].
    apply trim_nil_iff in E. lia. }
  assert (Hcount : 0 < wordCount value ->
            wordCount (Client.insertTemplate TEMPLATE_TEXT value) = 41 + wordCount value).
  { intro H. rewrite (Hfull H).
    rewrite (wordCount_sep TEMPLATE_TEXT nl _ Hnl) by discriminate.
    rewrite (wordCount_blank_l nl _ Hnl).
    rewrite (wordCount_sep (js "---") nl _ Hnl) by discriminate.
    rewrite (wordCount_blank_l nl _ Hnl), wordCount_trim, Hw.
    assert (Hrule : wordCount (js "---") = 1) by reflexivity. lia. }
  split; [reflexivity | split; [|split; [|split; [|]]]].
  - intro H. unfold Client.insertTemplate.
    assert (Ht : truthy TEMPLATE_TEXT = true) by (vm_compute; reflexivity).
    rewrite Ht, (proj2 (trim_nil_iff value) H). reflexivity.
  - rewrite markEthicsResponse_gated by lia. reflexivity.
  - intro H. split; [exact (Hfull H) | exact (Hcount H)].
  - intro H.
    assert (Hpos : 0 < wordCount value) by lia.
    assert (Hgate : 50 <= wordCount (Client.insertTemplate TEMPLATE_TEXT value))
      by (rewrite (Hcount Hpos); lia).
    rewrite (markEthicsResponse_ungated _ Hgate). cbn [Res.gated Res.score].
    split; [reflexivity|]. eexists. split; [reflexivity|].
    pose proof (rawScore_bounds (Client.insertTemplate TEMPLATE_TEXT value)) as Hb.
    rewrite rawScore_sum in *. rewrite (Hfull Hpos) in *.
    pose proof (marks_after TEMPLATE_TEXT
                  (nl ++ nl ++ js "---" ++ nl ++ nl ++ trim value))
      as (Hf & Hi & Hl & Hs).
    rewrite Hpf in Hf. rewrite Hpi in Hi. rewrite Hpl in Hl. rewrite Hps in Hs.
    assert (Hr : 0 <= points (markRecs
                   (toLowerCase (TEMPLATE_TEXT ++ nl ++ nl ++ js "---" ++ nl ++ nl ++ trim value))
                   (TEMPLATE_TEXT ++ nl ++ nl ++ js "---" ++ nl ++ nl ++ trim value))).
    { rewrite markRecs_points. split_ifs; lia. }
    lia.
Qed.

Lemma template_insert_witness :
  9 <= wordCount answer_nine_words /\
  wordCount (Client.insertTemplate TEMPLATE_TEXT answer_nine_words) = 50 /\
  Res.gated (markEthicsResponse (Client.insertTemplate TEMPLATE_TEXT answer_nine_words)) = false.
Proof.
  assert (H9 : 9 <= wordCount answer_nine_words) by (vm_compute; discriminate).
  destruct (template_insert answer_nine_words) as (_ & _ & _ & Hadd & Hpass).
  split; [exact H9 | split].
  - rewrite (proj2 (Hadd ltac:(vm_compute; reflexivity))). vm_compute. reflexivity.
  - exact (proj1 (Hpass H9)).
Defined.

(** ** The page and the marking route together *)

Lemma client_wc (text : jsstring) : Client.wc text = wordCount text.
Proof. reflexivity. Qed.

Lemma orElse_nil (s : jsstring) : Client.orElse (Some s) [] = s.
Proof. now destruct s. Qed.

Lemma markEthicsResponse_wordCount (a : jsstring) :
  Res.wordCount (markEthicsResponse a) = wordCount a.
Proof.
  destruct (Z.lt_ge_cases (wordCount a) 50) as [H | H].
  - now rewrite (markEthicsResponse_gated _ H).
  - now rewrite (markEthicsResponse_ungated _ H).
Qed.

Ltac ui_fields :=
  lazy beta iota zeta delta
    [Client.setSubmitDisabled Client.setModelDisplay Client.setModel
     Client.setFeedback Client.setScore Client.setWordCount Client.showGate
     Client.resetFeedback
     Client.gateDisplay Client.gateMsg Client.scoreBig Client.wordCountBig
     Client.feedbackBox Client.modelWrapDisplay Client.modelAnswerEl
     Client.submitDisabled].

(** X15. The page against the marking route. A blank answer is not sent.
    Whatever the session and the size of the request, an answer under 50
    words leaves the model answer hidden and empty and no score shown. A
    request the body parser refuses as too large ends in the "Network
    issue" message. For a request it accepts: without a valid session the
    gate is shown again; with one, an answer of 50 words or more that fits
    in 6000 code units shows its score out of 10, the feedback, and the
    model answer. *)
Theorem page_marking (tooLarge : jsstring -> bool) (valid : bool)
    (value : jsstring) (ui : Client.UI) :
  (wordCount value = 0 ->
   Client.mark (serverReply tooLarge valid) value ui
   = Client.setFeedback (js "Write your answer first (aim for 100–250 words).")
       (Client.resetFeedback ui)) /\
  (wordCount value < 50 ->
   Client.modelAnswerEl (Client.mark (serverReply tooLarge valid) value ui) = [] /\
   Client.modelWrapDisplay (Client.mark (serverReply tooLarge valid) value ui) = js "none" /\
   Client.scoreBig (Client.mark (serverReply tooLarge valid) value ui) = js "—") /\
  (0 < wordCount value -> tooLarge (trim value) = true ->
   Client.feedbackBox (Client.mark (serverReply tooLarge valid) value ui)
   = js "Network issue. Please try again." /\
   Client.gateDisplay (Client.mark (serverReply tooLarge valid) value ui)
   = Client.gateDisplay ui /\
   Client.modelAnswerEl (Client.mark (serverReply tooLarge valid) value ui) = []) /\
  (0 < wordCount value -> tooLarge (trim value) = false -> valid = false ->
   Client.gateDisplay (Client.mark (serverReply tooLarge valid) value ui) = js "flex" /\
   Client.modelAnswerEl (Client.mark (serverReply tooLarge valid) value ui) = []) /\
  (50 <= wordCount value -> tooLarge (trim value) = false -> valid = true ->
   Z.of_nat (length (trim value)) <= 6000 ->
   exists s fb,
     Res.score (markEthicsResponse (trim value)) = Some s /\
     Res.feedback (markEthicsResponse (trim value)) = Some fb /\
     Client.scoreBig (Client.mark (serverReply tooLarge valid) value ui)
     = Client.numToString s ++ js "/10" /\
     Client.wordCountBig (Client.mark (serverReply tooLarge valid) value ui)
     = Client.numToString (wordCount value) /\
     Client.feedbackBox (Client.mark (serverReply tooLarge valid) value ui) = fb /\
     Client.modelWrapDisplay (Client.mark (serverReply tooLarge valid) value ui)
     = js "block" /\
     Client.modelAnswerEl (Client.mark (serverReply tooLarge valid) value ui)
     = MODEL_ANSWER).
Proof.
  pose proof (wordCount_trim value) as Htrim.
  assert (Hzero : wordCount value = 0 ->
            Client.mark (serverReply tooLarge valid) value ui
            = Client.setFeedback (js "Write your answer first (aim for 100–250 words).")
                (Client.resetFeedback ui)).
  { intro H. unfold Client.mark. rewrite client_wc, Htrim, H. reflexivity. }
  assert (Hsend : 0 < wordCount value ->
            (Client.wc (trim value) =? 0) = false).
  { intro H. rewrite client_wc, Htrim. apply Z.eqb_neq. lia. }
  split; [exact Hzero | split; [|split; [|split]]].
  - intro Hlt.
    destruct (Z.eq_dec (wordCount value) 0) as [H0 | H0].
    { rewrite (Hzero H0). ui_fields. repeat split. }
    pose proof (wordCount_half value) as [Hnn _].
    unfold Client.mark. rewrite Hsend by lia.
    unfold serverReply. destruct (tooLarge (trim value)).
    { ui_fields. repeat split. }
    unfold apiMark, markRoute. destruct valid; cbn [negb Mark.status Mark.result Mark.ok].
    + assert (Hg : wordCount (clampStr (Some (trim value)) 6000) < 50).
      { pose proof (clampStr_words (trim value) 6000). lia. }
      rewrite (markEthicsResponse_gated _ Hg).
      cbn [Z.eqb Pos.eqb Res.gated Res.wordCount Res.message].
      ui_fields. repeat split.
    + cbn [Z.eqb Pos.eqb]. ui_fields. repeat split.
  - intros Hpos Hbig. unfold Client.mark. rewrite Hsend by trivial.
    unfold serverReply. rewrite Hbig. ui_fields. repeat split.
  - intros Hpos Hfit ->. unfold Client.mark. rewrite Hsend by trivial.
    unfold serverReply. rewrite Hfit.
    unfold apiMark, markRoute. cbn [negb Mark.status Z.eqb Pos.eqb].
    ui_fields. split; reflexivity.
  - intros Hge Hfit -> Hlen.
    assert (Hclamp : clampStr (Some (trim value)) 6000 = trim value).
    { rewrite clampStr_nonneg by lia. apply firstn_all2. lia. }
    assert (Hgate : 50 <= wordCount (trim value)) by lia.
    assert (Hm : truthy MODEL_ANSWER = true) by (vm_compute; reflexivity).
    unfold Client.mark. rewrite Hsend by lia.
    unfold serverReply. rewrite Hfit.
    unfold apiMark, markRoute. cbn [negb Mark.status Mark.result Mark.ok].
    rewrite Hclamp, (markEthicsResponse_ungated _ Hgate).
    cbn [Z.eqb Pos.eqb Res.gated Res.wordCount Res.score Res.feedback Res.modelAnswer].
    rewrite Hm, orElse_nil, Htrim.
    do 2 eexists. ui_fields.
    split; [reflexivity | split; [reflexivity|]]. repeat split.
Qed.

Lemma page_marking_witness :
  wordCount (js "The council got it wrong.") < 50 /\
  Client.modelAnswerEl
    (Client.mark (serverReply (fun t => 1000000 <? Z.of_nat (length t)) true)
       (js "The council got it wrong.") page_start)
  = [] /\
  Client.gateDisplay
    (Client.mark (serverReply (fun t => 1000000 <? Z.of_nat (length t)) false)
       (js "The council got it wrong.") page_start)
  = js "flex".
Proof.
  assert (Hwc : wordCount (js "The council got it wrong.") < 50) by reflexivity.
  split; [exact Hwc|].
  destruct (page_marking (fun t => 1000000 <? Z.of_nat (length t)) true
              (js "The council got it wrong.") page_start)
    as (_ & Hshort & _).
  destruct (page_marking (fun t => 1000000 <? Z.of_nat (length t)) false
              (js "The council got it wrong.") page_start)
    as (_ & _ & _ & Hgate & _).
  split; [exact (proj1 (Hshort Hwc))|].
  apply Hgate; reflexivity.
Defined.

(** ** The access code *)

Lemma bit7_low (b : N) : (b < 128)%N -> N.testbit b 7 = false.
Proof.
  intro H. destruct (N.eq_dec b 0) as [-> | Hb]; [reflexivity|].
  apply N.bits_above_log2. apply N.log2_lt_pow2; [lia | exact H].
Qed.

Lemma bit7_lor (k x : N) : N.testbit k 7 = true -> N.testbit (N.lor k x) 7 = true.
Proof. intro H. now rewrite N.lor_spec, H. Qed.

Lemma utf8_head (c : N) (r : jsstring) :
  (128 <= c)%N ->
  exists b rest, utf8 (c :: r) = b :: rest /\ N.testbit b 7 = true.
Proof.
  intro H. cbn [utf8].
  assert (Hc : (c <? 128)%N = false) by (apply N.ltb_ge; exact H).
  rewrite Hc. unfold utf8_3.
  destruct (c <? 2048)%N;
    [|destruct (isHighSurrogate c);
      [destruct r as [|d r']; [|destruct (isLowSurrogate d)]
      |destruct (isLowSurrogate c)]];
    cbn [app]; do 2 eexists; (split; [reflexivity | now apply bit7_lor]).
Qed.

Lemma utf8_ascii (s : jsstring) : asciiOnly s -> utf8 s = s.
Proof.
  induction 1 as [|c s Hc _ IH]; trivial.
  cbn [utf8]. apply N.ltb_lt in Hc. now rewrite Hc, IH.
Qed.

Lemma utf8_ascii_inj (s code : jsstring) :
  asciiOnly code -> utf8 s = code -> s = code.
Proof.
  intro Hcode. revert s.
  induction Hcode as [|a code Ha Hcode IH]; intros s Hs.
  - destruct s as [|c r]; trivial.
    destruct (N.lt_ge_cases c 128) as [Hc | Hc].
    + cbn [utf8] in Hs. apply N.ltb_lt in Hc. rewrite Hc in Hs. discriminate Hs.
    + destruct (utf8_head c r Hc) as (b & rest & Hb & _).
      rewrite Hb in Hs. discriminate Hs.
  - destruct s as [|c r]; [discriminate Hs|].
    destruct (N.lt_ge_cases c 128) as [Hc | Hc].
    + cbn [utf8] in Hs. apply N.ltb_lt in Hc. rewrite Hc in Hs.
      injection Hs as -> Hr. f_equal. now apply IH.
    + destruct (utf8_head c r Hc) as (b & rest & Hb & Hbit).
      rewrite Hb in Hs. injection Hs as -> _.
      rewrite (bit7_low a Ha) in Hbit. discriminate Hbit.
Qed.

Lemma timingSafeEqual_eq (a b : list N) : timingSafeEqual a b = true <-> a = b.
Proof.
  revert b. induction a as [|x a IH]; intros [|y b]; cbn [timingSafeEqual];
    try (split; [discriminate | discriminate]); [tauto|].
  rewrite andb_true_iff, N.eqb_eq, IH. split.
  - now intros [-> ->].
  - intros [= -> ->]. auto.
Qed.

Lemma unlock_check (a b : list N) :
  negb (length a =? length b)%nat || negb (timingSafeEqual a b) = false <-> a = b.
Proof.
  rewrite orb_false_iff, !negb_false_iff, Nat.eqb_eq, timingSafeEqual_eq.
  split; [tauto | intros ->; auto].
Qed.


